(** * jaxoplanet.object_stack: a shallow embedding of [ObjectStack]

    The development follows [src/jaxoplanet/object_stack.py]:

    - [ObjectStack.__init__]  is [ObjectStack_init];
    - [ObjectStack.vmap]      is [vmap], whose closure [impl] dispatches to
      the fast path (one call of [jax.vmap]) or to the loop over objects;
    - [index_helper] and [flatten_func_for_object_vmap] keep their names.

    The array engine is outside the repository.  What the code uses of it is
    modelled here at the level the code observes: n-dimensional arrays as
    nested lists, pytrees as labelled rose trees, [jnp.stack] and basic
    indexing as partial operations that raise. *)

From Stdlib Require Import String.
From Stdlib Require Import List ZArith Lia Bool Arith PeanoNat Permutation.
Import ListNotations.
Local Open Scope Z_scope.
Local Open Scope list_scope.

Set Implicit Arguments.

(* ===================================================================== *)
(** ** Values, errors and the result monad *)
(* ===================================================================== *)

(** Pytree node kinds: the containers a structural descriptor tells apart. *)
Inductive node_kind : Type :=
| KTuple
| KList
| KNone
| KDict (keys : list string)
| KClass (name : string).

Definition node_kind_eq_dec (a b : node_kind) : {a = b} + {a <> b}.
Proof.
  decide equality; [apply (list_eq_dec string_dec) | apply string_dec].
Defined.

(** A labelled rose tree; pytrees, structural descriptors and axis
    specifications are its three instances. *)
#[local] Unset Elimination Schemes.
Inductive rose (L : Type) : Type :=
| Leaf (x : L)
| Node (k : node_kind) (cs : list (rose L)).

Arguments Leaf {L} x.
Arguments Node {L} k cs.

(** Arrays: a scalar, or the list of sub-arrays along the leading axis.
    Entries are integers; the statements are about which entries end up
    where, none is about arithmetic on them. *)
Inductive array : Type :=
| Scal (x : Z)
| Arr (xs : list array).
#[local] Set Elimination Schemes.

Abbreviation pytree := (rose array).
Abbreviation PyTreeDef := (rose unit).
(** An axis specification: an integer axis or the sentinel [None] at the
    leaves, possibly given at a coarser level than the value it describes. *)
Abbreviation axis_spec := (rose (option Z)).

(** The exceptions the code can raise or let through. *)
Inductive error : Type :=
| PrefixError (name : string)            (* flatten_axes: not a tree prefix *)
| StructureMismatch (expected found : PyTreeDef) (* raised by impl *)
| StackError                             (* jnp.stack refuses its operands *)
| UnflattenError                         (* wrong number of leaves *)
| TreeMapError                           (* tree_map on mismatched trees *)
| IndexError                             (* arg[idx] *)
| AttributeError                         (* None.num_leaves *)
| VmapError                              (* raised inside jax.vmap *)
| TypeError                              (* a non-tuple where a tuple is due *)
| UserError (code : nat).                (* raised by the mapped function *)

Definition res (A : Type) : Type := (error + A)%type.
Definition Ok {A} (a : A) : res A := inr a.
Definition Err {A} (e : error) : res A := inl e.

Definition rbind {A B} (m : res A) (k : A -> res B) : res B :=
  match m with
  | inl e => inl e
  | inr a => k a
  end.

Declare Scope res_scope.
Delimit Scope res_scope with res.
Notation "x <- m ;; k" := (rbind m (fun x => k))
  (at level 61, m at next level, right associativity) : res_scope.
Local Open Scope res_scope.

Fixpoint mapM {A B} (f : A -> res B) (l : list A) : res (list B) :=
  match l with
  | [] => Ok []
  | x :: r => y <- f x ;; ys <- mapM f r ;; Ok (y :: ys)
  end.

(* ===================================================================== *)
(** ** Pytrees: jax.tree_util *)
(* ===================================================================== *)

Section Rose.
Context {L : Type}.

Fixpoint tree_structure (t : rose L) : PyTreeDef :=
    match t with
    | Leaf _ => Leaf tt
    | Node k cs => Node k (map tree_structure cs)
    end.

Fixpoint tree_leaves (t : rose L) : list L :=
    match t with
    | Leaf x => [x]
    | Node _ cs => flat_map tree_leaves cs
    end.

  (** [tree_flatten(t)] returns the leaves and the descriptor. *)
Definition tree_flatten (t : rose L) : list L * PyTreeDef :=
    (tree_leaves t, tree_structure t).

Fixpoint num_leaves (t : rose L) : nat :=
    match t with
    | Leaf _ => 1%nat
    | Node _ cs => list_sum (map num_leaves cs)
    end.

  (** Rebuild the children of a node, threading the remaining leaves. *)
Definition unflatten_children
      (rec : PyTreeDef -> list L -> option (rose L * list L)) :=
    fix go (cs : list PyTreeDef) (ls : list L)
      : option (list (rose L) * list L) :=
      match cs with
      | [] => Some ([], ls)
      | c :: cs' =>
          match rec c ls with
          | Some (t, rest) =>
              match go cs' rest with
              | Some (ts, rest') => Some (t :: ts, rest')
              | None => None
              end
          | None => None
          end
      end.

Fixpoint unflatten_aux (td : PyTreeDef) (ls : list L)
    : option (rose L * list L) :=
    match td with
    | Leaf _ =>
        match ls with
        | x :: rest => Some (Leaf x, rest)
        | [] => None
        end
    | Node k cs =>
        match unflatten_children unflatten_aux cs ls with
        | Some (ts, rest) => Some (Node k ts, rest)
        | None => None
        end
    end.

  (** [treedef.unflatten(leaves)]: too few or too many leaves raise. *)
Definition tree_unflatten (td : PyTreeDef) (ls : list L) : res (rose L) :=
    match unflatten_aux td ls with
    | Some (t, []) => Ok t
    | _ => Err UnflattenError
    end.
End Rose.

(** Induction over rose trees with the hypothesis on every child. *)
Section RoseInd.
Variable L : Type.
Variable P : rose L -> Prop.
Hypothesis HLeaf : forall x, P (Leaf x).
Hypothesis HNode : forall k cs, Forall P cs -> P (Node k cs).

Fixpoint rose_ind' (t : rose L) : P t :=
    match t with
    | Leaf x => HLeaf x
    | Node k cs =>
        HNode k
          ((fix go (l : list (rose L)) : Forall P l :=
              match l with
              | [] => Forall_nil P
              | c :: r => Forall_cons c (rose_ind' c) (go r)
              end) cs)
    end.
End RoseInd.

(** Equality of structural descriptors ([==] on [PyTreeDef]). *)
Definition list_eqb_with {A B} (f : A -> B -> bool) :=
  fix go (l1 : list A) (l2 : list B) : bool :=
    match l1, l2 with
    | [], [] => true
    | x :: r1, y :: r2 => f x y && go r1 r2
    | _, _ => false
    end.

Fixpoint treedef_eqb (a b : PyTreeDef) : bool :=
  match a, b with
  | Leaf _, Leaf _ => true
  | Node k cs, Node k' cs' =>
      if node_kind_eq_dec k k' then list_eqb_with treedef_eqb cs cs' else false
  | _, _ => false
  end.


(** Python's [!=] on descriptors. *)
Definition treedef_neqb (a b : PyTreeDef) : bool := negb (treedef_eqb a b).

(** [l.count(x)] on a list of descriptors. *)
Definition count_treedef (x : PyTreeDef) (l : list PyTreeDef) : nat :=
  length (filter (treedef_eqb x) l).

(** [zip] over the unpacked lists: the tuples of i-th elements, as long as all lists last. *)
Fixpoint zip_star {A} (ls : list (list A)) : list (list A) :=
  match ls with
  | [] => []
  | [l] => map (fun x => [x]) l
  | l :: rest => map (fun p => fst p :: snd p) (combine l (zip_star rest))
  end.

(* ===================================================================== *)
(** ** Arrays: shapes, jnp.stack and basic indexing *)
(* ===================================================================== *)

(** The shape, read along the leading sub-arrays; it is the shape of every
    path for the rectangular arrays ([rect] below) that NumPy and JAX hold. *)
Fixpoint shape (a : array) : list nat :=
  match a with
  | Scal _ => []
  | Arr xs => length xs :: match xs with
                           | [] => []
                           | x :: _ => shape x
                           end
  end.

Definition ndim (a : array) : nat := length (shape a).

Definition shape_eqb (s1 s2 : list nat) : bool := list_eqb_with Nat.eqb s1 s2.

Definition children (a : array) : list array :=
  match a with
  | Scal _ => []
  | Arr xs => xs
  end.

(** The columns of a list of rows: column [j] holds the [j]-th entry of
    every row, in row order. *)
Definition columns (rows : list (list array)) : list (list array) :=
  match rows with
  | [] => []
  | r :: _ =>
      map (fun j => map (fun row => nth j row (Scal 0)) rows)
          (seq 0 (length r))
  end.

(** Join equally shaped arrays along a new axis [a] (already made
    non-negative): axis 0 lists the operands, a later axis joins below the
    leading axis. *)
Fixpoint stack_at (a : nat) (xs : list array) : array :=
  match a with
  | O => Arr xs
  | S a' => Arr (map (stack_at a') (columns (map children xs)))
  end.

(** [jnp.stack(xs, axis)] (and [jpu.numpy.stack], which forwards to it):
    raises on an empty list, on operands of different shapes and on an axis
    outside [-(ndim+1), ndim+1). *)
Definition jnp_stack (xs : list array) (axis : Z) : res array :=
  match xs with
  | [] => Err StackError
  | x0 :: _ =>
      let nd := Z.of_nat (ndim x0) + 1 in
      if (- nd <=? axis) && (axis <? nd) then
        if forallb (fun x => shape_eqb (shape x) (shape x0)) xs then
          Ok (stack_at (Z.to_nat (if axis <? 0 then axis + nd else axis)) xs)
        else Err StackError
      else Err StackError
  end.

(** The entries of an index tuple that the code builds. *)
Inductive index_item : Type :=
| SliceAll                 (* slice(None) *)
| IntIdx (n : nat).        (* a non-negative integer, from enumerate *)

(** [arg[idx]] on a JAX array, for a tuple of full slices and integers.
    More indices than axes raise.  An integer beyond the axis does not: JAX
    clamps it to the last position of the axis; only an axis of length 0
    has no entry to return and raises. *)
Fixpoint getitem (idx : list index_item) (arg : array) : res array :=
  match idx with
  | [] => Ok arg
  | IntIdx n :: rest =>
      match arg with
      | Arr xs =>
          match nth_error xs (Nat.min n (length xs - 1)) with
          | Some x => getitem rest x
          | None => Err IndexError
          end
      | Scal _ => Err IndexError
      end
  | SliceAll :: rest =>
      match arg with
      | Arr xs => ys <- mapM (getitem rest) xs ;; Ok (Arr ys)
      | Scal _ => Err IndexError
      end
  end.

(** Python's [t * k] on tuples: no copies at all for [k <= 0]. *)
Definition tuple_repeat {A} (t : list A) (k : Z) : list A :=
  concat (repeat t (Z.to_nat k)).

Definition index_helper (n : nat) (arg : array) (axis : option Z) : res array :=
  match axis with
  | None => Ok arg
  | Some a => getitem (tuple_repeat [SliceAll] a ++ [IntIdx n]) arg
  end.

(* ===================================================================== *)
(** ** jax.api_util.flatten_axes and tree_map *)
(* ===================================================================== *)

Definition flatten_axes_children
    (rec : axis_spec -> PyTreeDef -> option (list (option Z))) :=
  fix go (axs : list axis_spec) (tds : list PyTreeDef)
    : option (list (option Z)) :=
    match axs, tds with
    | [], [] => Some []
    | a :: axs', t :: tds' =>
        match rec a t, go axs' tds' with
        | Some l1, Some l2 => Some (l1 ++ l2)
        | _, _ => None
        end
    | _, _ => None
    end.

(** Broadcast an axis specification that is a tree prefix of [td] to one
    entry per leaf of [td]. *)
Fixpoint flatten_axes_prefix (ax : axis_spec) (td : PyTreeDef)
  : option (list (option Z)) :=
  match ax with
  | Leaf a => Some (repeat a (num_leaves td))
  | Node k axs =>
      match td with
      | Node k' tds =>
          if node_kind_eq_dec k k'
          then flatten_axes_children flatten_axes_prefix axs tds
          else None
      | Leaf _ => None
      end
  end.

(** [flatten_axes(name, treedef, axis_tree)].  The descriptor argument is
    optional because [impl] passes its [out_tree] variable, which is still
    [None] when the loop has not run; [None.num_leaves] then raises. *)
Definition flatten_axes (name : string) (treedef : option PyTreeDef)
    (axis_tree : axis_spec) : res (list (option Z)) :=
  match treedef with
  | None => Err AttributeError
  | Some td =>
      match flatten_axes_prefix axis_tree td with
      | Some axes => Ok axes
      | None => Err (PrefixError name)
      end
  end.

(** [treedef.flatten_up_to(t)] for trees whose leaves are arrays: a tree
    of another structure is refused. *)
Definition flatten_up_to (treedef : PyTreeDef) (t : pytree) : res (list array) :=
  if treedef_eqb (tree_structure t) treedef then Ok (tree_leaves t)
  else Err TreeMapError.

(** [jax.tree_util.tree_map(f, *trees)] with [f] taking the leaves at one
    position of every tree. *)
Definition tree_map_star (f : list array -> res array) (trees : list pytree)
  : res pytree :=
  match trees with
  | [] => Err TypeError
  | t :: _ =>
      let treedef := tree_structure t in
      all_leaves <- mapM (flatten_up_to treedef) trees ;;
      ys <- mapM f (zip_star all_leaves) ;;
      tree_unflatten treedef ys
  end.

(* ===================================================================== *)
(** ** ObjectStack *)
(* ===================================================================== *)

(** The field [stack] is [Optional[Obj]]: [None] says that there is no
    stacked value, and [impl] tests [self.stack is not None]. *)
Record ObjectStack : Type := mkObjectStack {
  objects : list pytree;
  stack : option pytree
}.

(** A pytree that is Python's [None]: the node without children that
    [tree_flatten] and [tree_map] take [None] for. *)
Definition is_none (t : pytree) : bool :=
  match t with
  | Node KNone _ => true
  | _ => false
  end.

(** A Python value stored in an optional field: the value [None] cannot be
    told from an absent one. *)
Definition optional_value (t : pytree) : option pytree :=
  if is_none t then None else Some t.

(** [ObjectStack.__init__].  [tree_map] over objects that are [None]
    returns [None], and the field then reads as absent. *)
Definition ObjectStack_init (objs : list pytree) : res ObjectStack :=
  match objs with
  | [] => Ok (mkObjectStack objs None)
  | _ :: _ =>
      let spec := map tree_structure objs in
      if Nat.eqb (count_treedef (hd (Leaf tt) spec) spec) (length spec) then
        st <- tree_map_star (fun x => jnp_stack x 0) objs ;;
        Ok (mkObjectStack objs (optional_value st))
      else Ok (mkObjectStack objs None)
  end.

(** [ObjectStack.__len__]. *)
Definition ObjectStack_len (self : ObjectStack) : nat := length (objects self).

(* ===================================================================== *)
(** ** Calls with a trace *)
(* ===================================================================== *)

(** What a call of the built callable does that a caller can count: the
    evaluations of the mapped function, one per object in the loop, and the
    evaluations of [jax.vmap]. *)
Inductive event : Type :=
| EvCall (n : nat)     (* func called for object number n *)
| EvVmap.              (* one call of the function jax.vmap returned *)

Definition M (A : Type) : Type := (list event * res A)%type.

Definition mret {A} (a : A) : M A := ([], Ok a).
Definition lift {A} (r : res A) : M A := ([], r).
Definition emit (e : event) : M unit := ([e], Ok tt).
Definition raise {A} (e : error) : M A := ([], Err e).

Definition mbind {A B} (m : M A) (k : A -> M B) : M B :=
  match snd m with
  | inl e => (fst m, inl e)
  | inr a => (fst m ++ fst (k a), snd (k a))
  end.

Declare Scope m_scope.
Delimit Scope m_scope with M.
Notation "x <~ m ;; k" := (mbind m (fun x => k))
  (at level 61, m at next level, right associativity) : m_scope.
Local Open Scope m_scope.

Definition trace {A} (m : M A) : list event := fst m.
Definition outcome {A} (m : M A) : res A := snd m.

(** The mapped function: the object first, then the extra arguments. *)
Definition pyfunc : Type := pytree -> list pytree -> res pytree.

(** The [in_axes] parameter of [vmap]: an integer or [None], or a sequence. *)
Inductive in_axes_arg : Type :=
| InScalar (a : option Z)
| InSeq (l : list axis_spec).

(* ===================================================================== *)
(** ** The loop over objects *)
(* ===================================================================== *)

(** [flatten_func_for_object_vmap(f, in_tree, in_axes_flat, index)]
    applied to [body] and the flat arguments: returns the flat result and the
    descriptor that the wrapper stores on the side. *)
Definition flatten_func_for_object_vmap (func : pyfunc) (in_tree : PyTreeDef)
    (in_axes_flat : list (option Z)) (index : nat)
    (body : pytree) (args_flat : list array) : M (list array * PyTreeDef) :=
  args_indexed <~ lift (mapM (fun p => index_helper index (fst p) (snd p))
                             (combine args_flat in_axes_flat)) ;;
  args <~ lift (tree_unflatten in_tree args_indexed) ;;
  match args with
  | Node KTuple cs =>
      _ <~ emit (EvCall index) ;;
      ans <~ lift (func body cs) ;;
      mret (tree_flatten ans)
  | _ => raise TypeError
  end.

(** The [for n, body in enumerate(self.objects)] loop, from object [n] on,
    with the [results] and [out_tree] variables as accumulators. *)
Fixpoint object_loop (func : pyfunc) (in_tree : PyTreeDef)
    (in_axes_flat : list (option Z)) (args_flat : list array)
    (n : nat) (bodies : list pytree)
    (results : list (list array)) (out_tree : option PyTreeDef)
  : M (list (list array) * option PyTreeDef) :=
  match bodies with
  | [] => mret (results, out_tree)
  | body :: rest =>
      r <~ flatten_func_for_object_vmap func in_tree in_axes_flat n
             body args_flat ;;
      let results' := results ++ [fst r] in
      let out_tree_ := snd r in
      match out_tree with
      | Some expected =>
          if treedef_neqb out_tree_ expected
          then raise (StructureMismatch expected out_tree_)
          else object_loop func in_tree in_axes_flat args_flat (S n) rest
                 results' (Some out_tree_)
      | None =>
          object_loop func in_tree in_axes_flat args_flat (S n) rest
            results' (Some out_tree_)
      end
  end.

(** [zip] of [out_axes_flat] with the unpacked [results], each tuple split
    into its axis and its parts. *)
Definition zip_axes (out_axes_flat : list (option Z))
    (results : list (list array)) : list (option Z * list array) :=
  match results with
  | [] => map (fun a => (a, [])) out_axes_flat
  | _ :: _ => combine out_axes_flat (zip_star results)
  end.

(** One output leaf: [parts[0] if a is None else jnpu.stack(parts, axis=a)]. *)
Definition assemble_leaf (p : option Z * list array) : res array :=
  match fst p with
  | None =>
      match snd p with
      | x :: _ => Ok x
      | [] => Err IndexError
      end
  | Some a => jnp_stack (snd p) a
  end.

(** The part of [impl] after the loop. *)
Definition assemble (out_tree : option PyTreeDef) (out_axes : axis_spec)
    (results : list (list array)) : res pytree :=
  out_axes_flat <- flatten_axes "body_vmap out_axes" out_tree out_axes ;;
  match out_tree with
  | None => Err AttributeError
  | Some td =>
      leaves <- mapM assemble_leaf (zip_axes out_axes_flat results) ;;
      tree_unflatten td leaves
  end.

(** [in_axes_]: a sequence is taken as it is, anything else is repeated
    once per positional argument. *)
Definition normalize_in_axes (in_axes : in_axes_arg) (args : list pytree)
  : list axis_spec :=
  match in_axes with
  | InSeq l => l
  | InScalar a => map (fun _ => Leaf a) args
  end.

(** The loop branch of [impl]. *)
Definition slow_path (objs : list pytree) (func : pyfunc)
    (in_axes_ : list axis_spec) (out_axes : axis_spec)
    (args : list pytree) : M pytree :=
  let args_flat := fst (tree_flatten (Node KTuple args)) in
  let in_tree := snd (tree_flatten (Node KTuple args)) in
  in_axes_flat <~ lift (flatten_axes "body_vmap in_axes" (Some in_tree)
                          (Node KTuple in_axes_)) ;;
  r <~ object_loop func in_tree in_axes_flat args_flat 0 objs [] None ;;
  lift (assemble (snd r) out_axes (fst r)).

Section Dispatcher.

(** The callable [jax.vmap(func, in_axes, out_axes)] applied to its
    positional arguments: an operation of the array engine. *)
Variable jax_vmap :
  pyfunc -> list axis_spec -> axis_spec -> list pytree -> res pytree.

(** The vmap branch of [impl]. *)
Definition fast_path (stacked : pytree) (func : pyfunc)
    (in_axes_ : list axis_spec) (out_axes : axis_spec)
    (args : list pytree) : M pytree :=
  _ <~ emit EvVmap ;;
  lift (jax_vmap func (Leaf (Some 0) :: in_axes_) out_axes (stacked :: args)).

(** The closure [impl] that [ObjectStack.vmap] returns. *)
Definition impl (self : ObjectStack) (func : pyfunc) (in_axes : in_axes_arg)
    (out_axes : axis_spec) (args : list pytree) : M pytree :=
  let in_axes_ := normalize_in_axes in_axes args in
  match stack self with
  | Some stacked => fast_path stacked func in_axes_ out_axes args
  | None => slow_path (objects self) func in_axes_ out_axes args
  end.

(** [ObjectStack.vmap(func, in_axes, out_axes)]. *)
Definition vmap (self : ObjectStack) (func : pyfunc) (in_axes : in_axes_arg)
    (out_axes : axis_spec) : list pytree -> M pytree :=
  impl self func in_axes out_axes.

End Dispatcher.

(* ===================================================================== *)
(** ** A reference semantics for jax.vmap *)
(* ===================================================================== *)

(** [jax.vmap] belongs to the array engine.  Its documented meaning is used
    where a statement compares the two branches of [impl]: the mapped
    function is applied to every slice of the inputs along their mapped
    axes, a negative axis counting from the last one, all mapped axes having
    one common size, and the results are joined along [out_axes], where an
    output declared unmapped must not vary over the slices. *)

(** An axis index brought into [0, nd), or refused. *)
Definition canonicalize_axis (a : Z) (nd : nat) : res nat :=
  if (- Z.of_nat nd <=? a) && (a <? Z.of_nat nd)
  then Ok (Z.to_nat (if a <? 0 then a + Z.of_nat nd else a))
  else Err VmapError.

Definition canonical_in_axis (p : array * option Z) : res (option nat) :=
  match snd p with
  | None => Ok None
  | Some a => c <- canonicalize_axis a (ndim (fst p)) ;; Ok (Some c)
  end.

(** Slice [i] of a leaf along its (canonical) mapped axis. *)
Definition take_slice (i : nat) (p : array * option nat) : res array :=
  match snd p with
  | None => Ok (fst p)
  | Some c => getitem (repeat SliceAll c ++ [IntIdx i]) (fst p)
  end.

(** The sizes of the mapped axes, leaf by leaf. *)
Definition mapped_sizes (l : list (array * option nat)) : list nat :=
  flat_map (fun p => match snd p with
                     | None => []
                     | Some c => [nth c (shape (fst p)) O]
                     end) l.

(** Entry-wise equality of arrays. *)
Fixpoint array_eqb (a b : array) : bool :=
  match a, b with
  | Scal x, Scal y => Z.eqb x y
  | Arr xs, Arr ys => list_eqb_with array_eqb xs ys
  | _, _ => false
  end.

(** One output leaf of [jax.vmap]: the values of the slices joined along
    the out axis.  Under the sentinel [None] the output has to be unmapped,
    and [jax.vmap] raises for an output that is mapped.  [jax.vmap] finds
    that by following the data; a function given by its values shows only
    whether the output varies over the slices, and the reference raises
    when it does.  Where a statement below depends on how the reference
    joins the outputs, [out_axes] maps every leaf ([maps_every_leaf]) and
    this question does not arise. *)
Definition reference_leaf (p : option Z * list array) : res array :=
  match fst p with
  | None =>
      match snd p with
      | x :: rest => if forallb (array_eqb x) rest then Ok x else Err VmapError
      | [] => Err VmapError
      end
  | Some a => jnp_stack (snd p) a
  end.

(** The result of [jax.vmap], put together from the results on the
    slices. *)
Definition reference_assemble (out_tree : PyTreeDef) (out_axes : axis_spec)
    (results : list (list array)) : res pytree :=
  out_axes_flat <- flatten_axes "vmap out_axes" (Some out_tree) out_axes ;;
  leaves <- mapM reference_leaf (zip_axes out_axes_flat results) ;;
  tree_unflatten out_tree leaves.

(** The mapped function on slice [i] of the inputs. *)
Definition reference_call (func : pyfunc) (in_tree : PyTreeDef)
    (mapped : list (array * option nat)) (i : nat) : res pytree :=
  sliced <- mapM (take_slice i) mapped ;;
  t <- tree_unflatten in_tree sliced ;;
  match t with
  | Node KTuple (body :: rest) => func body rest
  | _ => Err TypeError
  end.

Definition vmap_reference (func : pyfunc) (in_axes : list axis_spec)
    (out_axes : axis_spec) (args : list pytree) : res pytree :=
  let args_flat := fst (tree_flatten (Node KTuple args)) in
  let in_tree := snd (tree_flatten (Node KTuple args)) in
  in_axes_flat <- flatten_axes "vmap in_axes" (Some in_tree)
                    (Node KTuple in_axes) ;;
  axes <- mapM canonical_in_axis (combine args_flat in_axes_flat) ;;
  let mapped := combine args_flat axes in
  match mapped_sizes mapped with
  | [] => Err VmapError
  | size :: others =>
      if forallb (Nat.eqb size) others then
        outs <- mapM (reference_call func in_tree mapped) (seq 0 size) ;;
        match outs with
        | [] => Err VmapError
        | o :: _ =>
            let out_tree := tree_structure o in
            if forallb (fun o' => treedef_eqb (tree_structure o') out_tree) outs
            then reference_assemble out_tree out_axes (map tree_leaves outs)
            else Err VmapError
        end
      else Err VmapError
  end.

(* ===================================================================== *)
(** ** Selection along an axis, as the contract of [index_helper] states it *)
(* ===================================================================== *)

(** Element [n] of the leading axis. *)
Definition item (n : nat) (arg : array) : res array :=
  match arg with
  | Arr xs =>
      match nth_error xs n with
      | Some x => Ok x
      | None => Err IndexError
      end
  | Scal _ => Err IndexError
  end.

(** Index [n] at axis [a], every earlier axis kept whole: below [a] leading
    axes, every sub-array gives up its element [n]. *)
Fixpoint select_at_axis (a : nat) (n : nat) (arg : array) : res array :=
  match a with
  | O => item n arg
  | S a' =>
      match arg with
      | Arr xs => ys <- mapM (select_at_axis a' n) xs ;; Ok (Arr ys)
      | Scal _ => Err IndexError
      end
  end.

(** The shape with axis [a] taken out. *)
Definition drop_axis (a : nat) (s : list nat) : list nat :=
  firstn a s ++ skipn (S a) s.

(* ===================================================================== *)
(** ** Rectangular arrays, reordering and the shape of a stack *)
(* ===================================================================== *)

(** Rectangular arrays: all sub-arrays of an array have one shape. *)
Definition all_rect (rec : array -> bool) :=
  fix go (l : list array) : bool :=
    match l with
    | [] => true
    | x :: r => rec x && go r
    end.

Fixpoint rect (a : array) : bool :=
  match a with
  | Scal _ => true
  | Arr xs =>
      all_rect rect xs
      && forallb (fun x => shape_eqb (shape x) (shape (hd (Scal 0) xs))) xs
  end.



(** The non-negative position of the new axis that [jnp.stack] makes for
    operands shaped like [x0]. *)
Definition stack_axis (x0 : array) (axis : Z) : nat :=
  Z.to_nat (if axis <? 0 then axis + (Z.of_nat (ndim x0) + 1) else axis).

(** A shape with a new axis of length [n] put at position [c]. *)
Definition insert_axis (c n : nat) (s : list nat) : list nat :=
  firstn c s ++ n :: skipn c s.

(* ===================================================================== *)
(** ** Vocabulary of the statements *)
(* ===================================================================== *)

(** All objects have the structural descriptor of the first one. *)
Definition uniform_structure (objs : list pytree) : Prop :=
  objs <> [] /\
  Forall (fun o => tree_structure o = tree_structure (hd (Leaf (Scal 0)) objs))
         objs.

(** Construction returns a stack that holds a stacked value. *)
Definition stacked_value_present (objs : list pytree) : Prop :=
  exists st s, ObjectStack_init objs = Ok st /\ stack st = Some s.

(** Leaf number [i] of every tree of a list, in list order. *)
Definition leaves_at (i : nat) (ts : list pytree) : list array :=
  map (fun t => nth i (tree_leaves t) (Scal 0)) ts.

(** Entry number [i] of every flat result, in object order: the [parts] of
    output leaf [i]. *)
Definition parts_at (i : nat) (results : list (list array)) : list array :=
  map (fun r => nth i r (Scal 0)) results.

(** What the call for object number [n] gives: the flat result and its
    descriptor, or the error raised. *)
Definition object_result (func : pyfunc) (in_tree : PyTreeDef)
    (in_axes_flat : list (option Z)) (args_flat : list array)
    (n : nat) (body : pytree) : res (list array * PyTreeDef) :=
  outcome (flatten_func_for_object_vmap func in_tree in_axes_flat n body
             args_flat).

(** The per-object call that a call of the loop branch makes, once
    [in_axes] is flattened against the arguments. *)
Definition slow_call (func : pyfunc) (in_axes_flat : list (option Z))
    (args : list pytree) : nat -> pytree -> res (list array * PyTreeDef) :=
  object_result func (tree_structure (Node KTuple args)) in_axes_flat
                (tree_leaves (Node KTuple args)).

(** The arguments that the call for object number [n] passes on, flat. *)
Definition indexed_args (in_axes_flat : list (option Z))
    (args_flat : list array) (n : nat) : res (list array) :=
  mapM (fun q => index_helper n (fst q) (snd q))
       (combine args_flat in_axes_flat).

(** The calls for [bodies], numbered from [n], all return, with flat
    results [rs] and one common descriptor [td]. *)
Fixpoint calls_agree (call : nat -> pytree -> res (list array * PyTreeDef))
    (n : nat) (bodies : list pytree) (rs : list (list array))
    (td : PyTreeDef) : Prop :=
  match bodies, rs with
  | [], [] => True
  | b :: bs, r :: rs' =>
      call n b = Ok (r, td) /\ calls_agree call (S n) bs rs' td
  | _, _ => False
  end.

(** The descriptor of the result of object number [i], when there is such
    an object and its call returns. *)
Definition descriptor_at (call : nat -> pytree -> res (list array * PyTreeDef))
    (objs : list pytree) (i : nat) : option PyTreeDef :=
  match nth_error objs i with
  | Some b =>
      match call i b with
      | inr r => Some (snd r)
      | inl _ => None
      end
  | None => None
  end.

(** [out_axes] names an axis for every output leaf: none is declared
    unmapped. *)
Definition maps_every_leaf (out_axes : axis_spec) : Prop :=
  Forall (fun a => a <> None) (tree_leaves out_axes).

(** Every mapped argument leaf has a non-negative axis among its own and
    [n] entries along it. *)
Definition mapped_axes_fit (n : nat) (args_flat : list array)
    (in_axes_flat : list (option Z)) : Prop :=
  Forall (fun q => match snd q with
                   | None => True
                   | Some a =>
                       0 <= a < Z.of_nat (ndim (fst q)) /\
                       nth (Z.to_nat a) (shape (fst q)) 0%nat = n
                   end)
         (combine args_flat in_axes_flat).

(** The inputs of [jax.vmap] on the fast path, leaf by leaf with their
    canonical axes: the leaves of the stacked value, mapped along axis 0,
    then the leaves of the extra arguments. *)
Definition mapped_stack (stacked : pytree) : list (array * option nat) :=
  map (fun x => (x, Some 0%nat)) (tree_leaves stacked).

Definition mapped_args (args : list pytree) (in_axes_flat : list (option Z))
  : list (array * option nat) :=
  map (fun q => (fst q, option_map Z.to_nat (snd q)))
      (combine (tree_leaves (Node KTuple args)) in_axes_flat).

(* ===================================================================== *)
(** ** Concrete inputs *)
(* ===================================================================== *)

(** Two objects of one structure whose leaves have different shapes. *)
Definition ragged_objects : list pytree :=
  [Leaf (Arr [Scal 1]); Leaf (Arr [Scal 1; Scal 2])].

(** Two objects that are [None]. *)
Definition none_objects : list pytree := [Node KNone []; Node KNone []].

(** Two objects of different structure. *)
Definition mixed_objects : list pytree :=
  [Node KTuple [Leaf (Scal 1)]; Leaf (Scal 2)].

(** Two objects of one structure, with radii 1 and 2. *)
Definition two_bodies : list pytree :=
  [Node (KClass "Body") [Leaf (Scal 1)]; Node (KClass "Body") [Leaf (Scal 2)]].

(** The 2x2 array with rows (1, 2) and (3, 4). *)
Definition matrix22 : array :=
  Arr [Arr [Scal 1; Scal 2]; Arr [Scal 3; Scal 4]].

(** The empty stack, as construction returns it. *)
Definition empty_stack : ObjectStack := mkObjectStack [] None.

(** A function whose result is one fixed scalar, whatever it is given. *)
Definition constant_func : pyfunc := fun _ _ => Ok (Leaf (Scal 7)).

(** A function that returns the object it is given. *)
Definition identity_func : pyfunc := fun body _ => Ok body.

(** [lambda body, x: x]. *)
Definition second_arg_func : pyfunc :=
  fun _ args =>
    match args with
    | x :: _ => Ok x
    | [] => Err (UserError 0)
    end.

(** The first leaf of the object, as a number. *)
Definition radius (body : pytree) : Z :=
  match tree_leaves body with
  | Scal r :: _ => r
  | _ => 0
  end.

(** [lambda body, t: t * body.radius] on scalars. *)
Definition scale_func : pyfunc :=
  fun body args =>
    match args with
    | [Leaf (Scal t)] => Ok (Leaf (Scal (t * radius body)))
    | _ => Err (UserError 0)
    end.

(** Arrays that [jnp.stack] accepts together: all of the shape of the
    first. *)
Definition stackable (xs : list array) : Prop :=
  Forall (fun x => shape x = shape (hd (Scal 0) xs)) xs.

(** A function that raises for the object of radius 2. *)
Definition picky_func : pyfunc :=
  fun body _ =>
    if Z.eqb (radius body) 2 then Err (UserError 3) else Ok body.

(** The error that [impl] raises itself. *)
Definition is_mismatch (e : error) : bool :=
  match e with
  | StructureMismatch _ _ => true
  | _ => false
  end.

(** The mapped function does not raise the error of [impl]. *)
Definition raises_no_mismatch (func : pyfunc) : Prop :=
  forall body cs e, func body cs = Err e -> is_mismatch e = false.

(* ********************************************************************* *)
(** * Properties *)
(* ********************************************************************* *)

Lemma treedef_eqb_spec (a b : PyTreeDef) : treedef_eqb a b = true <-> a = b.
Proof.
  revert b. induction a as [[]|k cs IH] using rose_ind'; intros [[]|k' cs']; simpl;
    try (split; [discriminate | discriminate]); try (split; reflexivity).
  destruct (node_kind_eq_dec k k') as [->|Hk].
  - revert cs'. induction IH as [|c r Hc _ IHr]; intros [|c' r']; simpl;
      try (split; [discriminate | discriminate]); try (split; reflexivity).
    rewrite andb_true_iff, Hc. specialize (IHr r'). split.
    + intros [-> Hr]. apply IHr in Hr. congruence.
    + intros E. injection E as -> E. split; [reflexivity|]. apply IHr. congruence.
  - split; [discriminate | congruence].
Qed.

Lemma treedef_eqb_refl (a : PyTreeDef) : treedef_eqb a a = true.
Proof. apply treedef_eqb_spec. reflexivity. Qed.

(** ** The result monad and lists *)

Lemma mapM_ext {A B} (f g : A -> res B) (l : list A) :
  (forall x, In x l -> f x = g x) -> mapM f l = mapM g l.
Proof.
  induction l as [|x r IH]; intros H; simpl; [reflexivity|].
  rewrite (H x (or_introl eq_refl)), IH; [reflexivity|].
  intros y Hy. apply H. right. exact Hy.
Qed.

Lemma mapM_Ok_length {A B} (f : A -> res B) (l : list A) (ys : list B) :
  mapM f l = Ok ys -> length ys = length l.
Proof.
  revert ys. induction l as [|x r IH]; simpl; intros ys H.
  - injection H as <-. reflexivity.
  - destruct (f x) as [e|y]; [discriminate|]. simpl in H.
    destruct (mapM f r) as [e|ys']; [discriminate|]. simpl in H.
    injection H as <-. simpl. f_equal. apply IH. reflexivity.
Qed.

Lemma mapM_Ok_nth {A B} (f : A -> res B) (l : list A) (ys : list B) :
  mapM f l = Ok ys ->
  forall i x, nth_error l i = Some x ->
  exists y, nth_error ys i = Some y /\ f x = Ok y.
Proof.
  revert ys. induction l as [|x0 r IH]; simpl; intros ys H i x Hi.
  - destruct i; discriminate.
  - destruct (f x0) as [e|y0] eqn:E0; [discriminate|]. simpl in H.
    destruct (mapM f r) as [e|ys'] eqn:E; [discriminate|]. simpl in H.
    injection H as <-. destruct i as [|i]; simpl in *.
    + injection Hi as <-. exists y0. split; [reflexivity | exact E0].
    + apply (IH ys' eq_refl i x Hi).
Qed.

Lemma mapM_all_Ok {A B} (f : A -> res B) (g : A -> B) (l : list A) :
  (forall x, In x l -> f x = Ok (g x)) -> mapM f l = Ok (map g l).
Proof.
  induction l as [|x r IH]; intros H; simpl; [reflexivity|].
  rewrite (H x (or_introl eq_refl)). simpl.
  rewrite IH; [reflexivity|]. intros y Hy. apply H. right. exact Hy.
Qed.

Lemma mapM_app {A B} (f : A -> res B) (l1 l2 : list A) :
  mapM f (l1 ++ l2) =
  (ys1 <- mapM f l1 ;; ys2 <- mapM f l2 ;; Ok (ys1 ++ ys2)).
Proof.
  induction l1 as [|x r IH]; simpl.
  - destruct (mapM f l2); reflexivity.
  - destruct (f x) as [e|y]; [reflexivity|]. simpl. rewrite IH.
    destruct (mapM f r) as [e|ys1]; [reflexivity|]. simpl.
    destruct (mapM f l2) as [e|ys2]; reflexivity.
Qed.

(** ** [index_helper] *)

Lemma tuple_repeat_nat {A} (x : A) (a : nat) :
  tuple_repeat [x] (Z.of_nat a) = repeat x a.
Proof.
  unfold tuple_repeat. rewrite Nat2Z.id.
  induction a as [|a IH]; simpl; [reflexivity | now rewrite IH].
Qed.

Lemma tuple_repeat_neg {A} (t : list A) (p : positive) :
  tuple_repeat t (Z.neg p) = [].
Proof. reflexivity. Qed.

Lemma mapM_Ok_impl {A B} (f g : A -> res B) (l : list A) :
  (forall x y, In x l -> f x = Ok y -> g x = Ok y) ->
  forall ys, mapM f l = Ok ys -> mapM g l = Ok ys.
Proof.
  induction l as [|x r IH]; intros H ys; simpl; [trivial|].
  destruct (f x) as [e|y] eqn:Ex; [discriminate|].
  rewrite (H x y (or_introl eq_refl) Ex). simpl.
  destruct (mapM f r) as [e|ys'] eqn:Er; [discriminate|].
  rewrite (IH (fun x' y' Hx => H x' y' (or_intror Hx)) ys' eq_refl).
  trivial.
Qed.

(** An index that the axis has is not clamped. *)
Lemma clamp_in_range {A} (xs : list A) (n : nat) (x : A) :
  nth_error xs n = Some x ->
  nth_error xs (Nat.min n (length xs - 1)) = Some x.
Proof.
  intros H. assert (n < length xs)%nat by (apply nth_error_Some; congruence).
  replace (Nat.min n (length xs - 1)) with n by lia. exact H.
Qed.

(** An index beyond the axis returns the last entry, and there is nothing
    to return from an empty axis. *)
Example getitem_beyond_axis :
  getitem [IntIdx 5] matrix22 = Ok (Arr [Scal 3; Scal 4]) /\
  getitem [SliceAll; IntIdx 5] matrix22 = Ok (Arr [Scal 2; Scal 4]) /\
  getitem [IntIdx 0] (Arr []) = Err IndexError.
Proof. repeat split. Qed.

(** Where the selection of index [n] at axis [a] is defined, indexing with
    [a] full slices and [n] returns it. *)
Lemma getitem_slices (a n : nat) :
  forall (arg r : array),
  select_at_axis a n arg = Ok r ->
  getitem (repeat SliceAll a ++ [IntIdx n]) arg = Ok r.
Proof.
  induction a as [|a IH]; intros arg r; simpl; unfold item.
  - destruct arg as [x|xs]; [trivial|].
    destruct (nth_error xs n) as [y|] eqn:E; [|discriminate].
    rewrite (clamp_in_range _ _ E). trivial.
  - destruct arg as [x|xs]; [trivial|].
    destruct (mapM (select_at_axis a n) xs) as [e|ys] eqn:E; [discriminate|].
    rewrite (mapM_Ok_impl _ (getitem (repeat SliceAll a ++ [IntIdx n])) xs
               (fun x y _ => IH x y) E).
    trivial.
Qed.


(** ** Flattening and rebuilding pytrees *)

Section RoseFacts.
Context {L : Type}.

Lemma num_leaves_structure (t : rose L) :
  num_leaves (tree_structure t) = num_leaves t.
Proof.
  induction t as [x|k cs IH] using rose_ind'; simpl; [reflexivity|].
  f_equal. rewrite map_map.
  induction IH as [|c r Hc _ IHr]; simpl; [reflexivity | now rewrite Hc, IHr].
Qed.

Lemma length_tree_leaves (t : rose L) :
  length (tree_leaves t) = num_leaves t.
Proof.
  induction t as [x|k cs IH] using rose_ind'; simpl; [reflexivity|].
  induction IH as [|c r Hc _ IHr]; simpl; [reflexivity|].
  now rewrite length_app, Hc, IHr.
Qed.

(** Rebuilding from the leaves of a tree gives the tree back and leaves
    what follows untouched. *)
Lemma unflatten_aux_flatten (t : rose L) (rest : list L) :
  unflatten_aux (tree_structure t) (tree_leaves t ++ rest) = Some (t, rest).
Proof.
  revert rest. induction t as [x|k cs IH] using rose_ind'; intros rest; simpl;
    [reflexivity|].
  assert (H : unflatten_children unflatten_aux (map tree_structure cs)
                (flat_map tree_leaves cs ++ rest) = Some (cs, rest)).
  { induction IH as [|c r Hc _ IHr]; simpl; [reflexivity|].
    rewrite <- app_assoc, Hc. simpl in IHr. rewrite IHr. reflexivity. }
  rewrite H. reflexivity.
Qed.

(** Whatever is rebuilt has the asked structure and used a prefix of the
    leaves. *)
Lemma unflatten_aux_sound (td : PyTreeDef) (ls : list L) (t : rose L)
    (rest : list L) :
  unflatten_aux td ls = Some (t, rest) ->
  tree_structure t = td /\ ls = tree_leaves t ++ rest.
Proof.
  revert ls t rest. induction td as [[]|k cs IH] using rose_ind';
    intros ls t rest; simpl.
  - destruct ls as [|x r]; [discriminate|]. intros E. injection E as <- <-.
    split; reflexivity.
  - destruct (unflatten_children unflatten_aux cs ls) as [[ts r]|] eqn:E;
      [|discriminate].
    intros E'. injection E' as <- <-. simpl.
    assert (H : map tree_structure ts = cs /\
                ls = flat_map tree_leaves ts ++ r).
    { clear k. revert ls ts r E. induction IH as [|c cs' Hc _ IHr];
        intros ls ts r E; simpl in E.
      - injection E as <- <-. split; reflexivity.
      - destruct (unflatten_aux c ls) as [[t1 r1]|] eqn:E1; [|discriminate].
        destruct (unflatten_children unflatten_aux cs' r1) as [[ts' r2]|] eqn:E2;
          [|discriminate].
        injection E as <- <-. apply Hc in E1. destruct E1 as [<- ->].
        destruct (IHr _ _ _ E2) as [<- ->]. simpl.
        split; [reflexivity | now rewrite app_assoc]. }
    destruct H as [<- ->]. split; reflexivity.
Qed.

Lemma tree_unflatten_flatten (t : rose L) :
  tree_unflatten (tree_structure t) (tree_leaves t) = Ok t.
Proof.
  unfold tree_unflatten.
  rewrite <- (app_nil_r (tree_leaves t)), unflatten_aux_flatten. reflexivity.
Qed.

Lemma tree_unflatten_Ok (td : PyTreeDef) (ls : list L) (t : rose L) :
  tree_unflatten td ls = Ok t <-> tree_structure t = td /\ tree_leaves t = ls.
Proof.
  split.
  - unfold tree_unflatten.
    destruct (unflatten_aux td ls) as [[t' [|x r]]|] eqn:E; try discriminate.
    intros H. injection H as <-. apply unflatten_aux_sound in E.
    destruct E as [E1 E2]. rewrite app_nil_r in E2. split; congruence.
  - intros [<- <-]. apply tree_unflatten_flatten.
Qed.

End RoseFacts.

(** A list of the right length can always be rebuilt. *)
Lemma unflatten_aux_total {L} (td : PyTreeDef) (ls : list L) :
  (num_leaves td <= length ls)%nat ->
  exists t, unflatten_aux td ls = Some (t, skipn (num_leaves td) ls).
Proof.
  revert ls. induction td as [[]|k cs IH] using rose_ind'; intros ls Hlen; simpl.
  - destruct ls as [|x r]; simpl in *; [lia|]. eexists. reflexivity.
  - simpl in Hlen.
    assert (H : exists ts, unflatten_children unflatten_aux cs ls =
                           Some (ts, skipn (list_sum (map num_leaves cs)) ls)).
    { clear k. revert ls Hlen. induction IH as [|c cs' Hc _ IHr];
        intros ls Hlen; simpl in *.
      - exists []. reflexivity.
      - destruct (Hc ls ltac:(lia)) as [t1 E1]. rewrite E1.
        destruct (IHr (skipn (num_leaves c) ls)) as [ts E2].
        { rewrite length_skipn. lia. }
        rewrite E2. exists (t1 :: ts). rewrite skipn_skipn.
        do 3 f_equal. lia. }
    destruct H as [ts ->]. eexists. reflexivity.
Qed.

Lemma tree_unflatten_total {L} (td : PyTreeDef) (ls : list L) :
  length ls = num_leaves td -> exists t, tree_unflatten td ls = Ok t.
Proof.
  intros Hlen. destruct (unflatten_aux_total td ls ltac:(lia)) as [t E].
  unfold tree_unflatten. rewrite E, <- Hlen, skipn_all. eexists. reflexivity.
Qed.

(** ** Lists of lists *)

Lemma nth_error_combine {A B} (l1 : list A) (l2 : list B) i a b :
  nth_error l1 i = Some a -> nth_error l2 i = Some b ->
  nth_error (combine l1 l2) i = Some (a, b).
Proof.
  revert l2 i. induction l1 as [|x r IH]; intros [|y r2] [|i]; simpl;
    try discriminate.
  - intros E1 E2. injection E1 as <-. injection E2 as <-. reflexivity.
  - apply IH.
Qed.

Lemma nth_error_nth_lt {A} (l : list A) i d :
  (i < length l)%nat -> nth_error l i = Some (nth i l d).
Proof.
  revert i. induction l as [|x r IH]; intros [|i] H; simpl in *; try lia.
  - reflexivity.
  - apply IH. lia.
Qed.

(** Position [i] of [zip_star] holds the [i]-th element of every list. *)
Lemma zip_star_spec {A} (d : A) (m : nat) (ls : list (list A)) :
  ls <> [] -> Forall (fun l => length l = m) ls ->
  length (zip_star ls) = m /\
  forall i, (i < m)%nat ->
       nth_error (zip_star ls) i = Some (map (fun l => nth i l d) ls).
Proof.
  induction ls as [|l rest IH]; intros Hne Hall; [congruence|].
  inversion Hall as [|? ? Hl Hrest]; subst.
  destruct rest as [|l2 rest'].
  - simpl. rewrite length_map. split; [reflexivity|].
    intros i Hi. rewrite nth_error_map, (nth_error_nth_lt l d Hi). reflexivity.
  - destruct (IH ltac:(discriminate) Hrest) as [Hlen Hnth].
    change (zip_star (l :: l2 :: rest'))
      with (map (fun p => fst p :: snd p) (combine l (zip_star (l2 :: rest')))).
    rewrite length_map, length_combine, Hlen, Nat.min_id.
    split; [reflexivity|]. intros i Hi.
    rewrite nth_error_map.
    rewrite (nth_error_combine _ _ _ (nth_error_nth_lt l d Hi) (Hnth i Hi)).
    reflexivity.
Qed.

Lemma count_treedef_all (x : PyTreeDef) (l : list PyTreeDef) :
  Nat.eqb (count_treedef x l) (length l) = true <-> Forall (eq x) l.
Proof.
  unfold count_treedef. rewrite Nat.eqb_eq. split.
  - induction l as [|y r IH]; simpl; intros H; [constructor|].
    pose proof (filter_length_le (treedef_eqb x) r) as Hle.
    destruct (treedef_eqb x y) eqn:E; simpl in H; [|lia].
    constructor; [now apply treedef_eqb_spec | apply IH; lia].
  - induction 1 as [|y r Hy _ IH]; simpl; [reflexivity|].
    subst y. rewrite treedef_eqb_refl. simpl. now rewrite IH.
Qed.

(** ** [jnp.stack] along the leading axis *)

Lemma jnp_stack_axis0 (xs : list array) (y : array) :
  jnp_stack xs 0 = Ok y -> y = Arr xs.
Proof.
  unfold jnp_stack. destruct xs as [|x0 r]; [discriminate|].
  destruct (_ && _); [|discriminate].
  destruct (forallb _ _); [|discriminate].
  simpl. intros E. injection E as <-.
  replace (0 <? 0) with false by reflexivity. reflexivity.
Qed.

(** ** Construction *)

Lemma flatten_up_to_same (t : pytree) :
  flatten_up_to (tree_structure t) t = Ok (tree_leaves t).
Proof. unfold flatten_up_to. now rewrite treedef_eqb_refl. Qed.

Lemma ObjectStack_init_cases (objs : list pytree) :
  let uniform := uniform_structure objs in
  (uniform /\
   ObjectStack_init objs =
     (ys <- mapM (fun x => jnp_stack x 0) (zip_star (map tree_leaves objs)) ;;
      st <- tree_unflatten (tree_structure (hd (Leaf (Scal 0)) objs)) ys ;;
      Ok (mkObjectStack objs (optional_value st)))) \/
  (~ uniform /\ ObjectStack_init objs = Ok (mkObjectStack objs None)).
Proof.
  intros uniform. subst uniform. unfold uniform_structure.
  destruct objs as [|o r].
  - right. split; [intros [H _]; congruence | reflexivity].
  - unfold ObjectStack_init.
    destruct (Nat.eqb _ _) eqn:E.
    + left. apply count_treedef_all in E. simpl hd in *.
      assert (Hall : Forall (fun x => tree_structure x = tree_structure o) (o :: r)).
      { rewrite Forall_forall in *. intros x Hx. symmetry. apply E.
        apply in_map. exact Hx. }
      split; [split; [discriminate | exact Hall]|].
      unfold tree_map_star.
      rewrite (mapM_all_Ok _ (@tree_leaves array)).
      * simpl. destruct (mapM _ _) as [e|ys]; [reflexivity|]. simpl.
        destruct (tree_unflatten _ _); reflexivity.
      * intros x Hx. rewrite Forall_forall in Hall. rewrite <- (Hall x Hx).
        apply flatten_up_to_same.
    + right. split; [|reflexivity]. intros [_ Hall].
      assert (E' : Nat.eqb (count_treedef (hd (Leaf tt) (map tree_structure (o :: r)))
                      (map tree_structure (o :: r)))
                      (length (map tree_structure (o :: r))) = true).
      { apply count_treedef_all. simpl. apply Forall_forall.
        intros td Htd. change (In td (map tree_structure (o :: r))) in Htd.
        apply in_map_iff in Htd. destruct Htd as [x [<- Hx]].
        rewrite Forall_forall in Hall. symmetry. apply (Hall x Hx). }
      congruence.
Qed.

Lemma uniform_leaves (objs : list pytree) :
  uniform_structure objs ->
  map tree_leaves objs <> [] /\
  Forall (fun l => length l = num_leaves (hd (Leaf (Scal 0)) objs))
         (map tree_leaves objs).
Proof.
  intros [Hne Hall]. split.
  - destruct objs; [congruence | discriminate].
  - apply Forall_forall. intros l Hl. apply in_map_iff in Hl.
    destruct Hl as [o [<- Ho]]. rewrite Forall_forall in Hall.
    rewrite length_tree_leaves, <- num_leaves_structure, (Hall o Ho).
    apply num_leaves_structure.
Qed.

Lemma optional_value_Some (t s : pytree) :
  optional_value t = Some s <-> s = t /\ is_none t = false.
Proof.
  unfold optional_value. destruct (is_none t); split.
  - discriminate.
  - intros [_ H]. discriminate.
  - intros H. injection H as <-. split; reflexivity.
  - intros [-> _]. reflexivity.
Qed.

(** Whether a value is [None] shows in its descriptor. *)
Lemma is_none_structure (s t : pytree) :
  tree_structure s = tree_structure t -> is_none s = is_none t.
Proof.
  destruct s as [x|k cs], t as [y|k' cs']; simpl; try discriminate;
    [reflexivity|].
  intros H. injection H as -> _. reflexivity.
Qed.

(** A stored stacked value is what [tree_map] made of the stacks of the
    leaves of objects of one structure. *)
Lemma ObjectStack_init_stacked (objs : list pytree) (st : ObjectStack)
    (stacked : pytree) :
  ObjectStack_init objs = Ok st -> stack st = Some stacked ->
  uniform_structure objs /\ st = mkObjectStack objs (Some stacked) /\
  is_none stacked = false /\
  exists ys,
    mapM (fun x => jnp_stack x 0) (zip_star (map tree_leaves objs)) = Ok ys /\
    tree_unflatten (tree_structure (hd (Leaf (Scal 0)) objs)) ys = Ok stacked.
Proof.
  intros Hinit Hst.
  destruct (ObjectStack_init_cases objs) as [[Hu E]|[Hu E]]; rewrite E in Hinit.
  - destruct (mapM _ _) as [e|ys] eqn:Eys; [discriminate|]. simpl in Hinit.
    destruct (tree_unflatten _ ys) as [e|s] eqn:Es; [discriminate|].
    simpl in Hinit. injection Hinit as <-. simpl in Hst.
    apply optional_value_Some in Hst. destruct Hst as [-> Hn].
    split; [exact Hu|]. split.
    + f_equal. apply optional_value_Some. split; [reflexivity | exact Hn].
    + split; [exact Hn|]. exists ys. split; [reflexivity | exact Es].
  - injection Hinit as <-. discriminate.
Qed.

(** What construction stores, whenever it returns a stack: the objects as
    given; a stacked value exactly when the sequence is non-empty, every
    object has the structural descriptor of the first, and the objects are
    not [None]; and a stacked value with the descriptor of one object,
    whose leaf number [i] is the array listing, along a new leading axis
    and in object order, leaf number [i] of every object. *)
Lemma ObjectStack_init_stacked_value (objs : list pytree) (st : ObjectStack) :
  ObjectStack_init objs = Ok st ->
  objects st = objs /\
  (stack st <> None <->
   uniform_structure objs /\ is_none (hd (Leaf (Scal 0)) objs) = false) /\
  (forall s, stack st = Some s ->
     tree_structure s = tree_structure (hd (Leaf (Scal 0)) objs) /\
     forall i, (i < num_leaves s)%nat ->
       nth_error (tree_leaves s) i = Some (Arr (leaves_at i objs))).
Proof.
  intros Hinit.
  destruct (ObjectStack_init_cases objs) as [[Hu E]|[Hu E]]; rewrite E in Hinit.
  - destruct (mapM _ _) as [e|ys] eqn:Eys; [discriminate|]. simpl in Hinit.
    destruct (tree_unflatten _ ys) as [e|s] eqn:Es; [discriminate|].
    simpl in Hinit. injection Hinit as <-. simpl.
    apply tree_unflatten_Ok in Es. destruct Es as [Htd Hls].
    split; [reflexivity|]. split.
    + rewrite <- (is_none_structure _ _ Htd). unfold optional_value.
      destruct (is_none s); split.
      * intros H. congruence.
      * intros [_ H]. discriminate.
      * intros _. split; [exact Hu | reflexivity].
      * discriminate.
    + intros s' Hs'. apply optional_value_Some in Hs'. destruct Hs' as [-> _].
      split; [exact Htd|]. intros i Hi.
      destruct (uniform_leaves Hu) as [Hne Hlen].
      destruct (zip_star_spec (Scal 0) Hne Hlen) as [Hzl Hz].
      assert (Hi' : (i < num_leaves (hd (Leaf (Scal 0)) objs))%nat).
      { pose proof (num_leaves_structure s) as H1.
        pose proof (num_leaves_structure (hd (Leaf (Scal 0)) objs)) as H2.
        rewrite Htd in H1. lia. }
      destruct (mapM_Ok_nth _ _ Eys i (Hz i Hi')) as [y [Hy Hst]].
      rewrite Hls, Hy. apply jnp_stack_axis0 in Hst. rewrite Hst.
      unfold leaves_at. rewrite map_map. reflexivity.
  - injection Hinit as <-. simpl.
    split; [reflexivity|]. split.
    + split; [congruence | intros [H _]; contradiction].
    + discriminate.
Qed.

(** C2 at two inputs of one structure.  The claim, and the comment in
    [__init__], have a stacked value saved whenever the objects are not
    empty and match in structure.  For two arrays of shapes (1,) and (2,),
    which have one descriptor, construction raises the error of
    [jnp.stack]: no stack and no stacked value come out.  For two objects
    that are [None], construction returns a stack whose field reads as
    absent. *)
Theorem construction_misses_stacked_value :
  (uniform_structure ragged_objects /\
   ObjectStack_init ragged_objects = Err StackError /\
   ~ stacked_value_present ragged_objects) /\
  (uniform_structure none_objects /\
   ObjectStack_init none_objects = Ok (mkObjectStack none_objects None) /\
   ~ stacked_value_present none_objects).
Proof.
  split; (split; [|split]).
  - split; [discriminate|]. repeat constructor.
  - reflexivity.
  - intros [st [s [H _]]]. discriminate.
  - split; [discriminate|]. repeat constructor.
  - reflexivity.
  - intros [st [s [H Hs]]]. injection H as <-. discriminate.
Qed.

(** ** The trace monad *)

Lemma rbind_Ok {A B} (a : A) (k : A -> res B) : rbind (Ok a) k = k a.
Proof. reflexivity. Qed.

Lemma mbind_lift_Ok {A B} (a : A) (k : A -> M B) :
  mbind (lift (Ok a)) k = k a.
Proof. unfold mbind, lift. simpl. destruct (k a). reflexivity. Qed.

Lemma outcome_mbind {A B} (m : M A) (k : A -> M B) :
  outcome (mbind m k) =
  match outcome m with
  | inl e => inl e
  | inr a => outcome (k a)
  end.
Proof. unfold outcome, mbind. destruct (snd m); reflexivity. Qed.

(** ** The fast path *)

Section FastPath.
Variable jax_vmap :
  pyfunc -> list axis_spec -> axis_spec -> list pytree -> res pytree.

Lemma impl_stacked_dispatch (self : ObjectStack) (func : pyfunc)
    (in_axes : in_axes_arg) (out_axes : axis_spec) (args : list pytree)
    (stacked : pytree) :
  stack self = Some stacked ->
  impl jax_vmap self func in_axes out_axes args =
    fast_path jax_vmap stacked func (normalize_in_axes in_axes args)
              out_axes args.
Proof. intros Hs. unfold impl. rewrite Hs. reflexivity. Qed.

Lemma fast_path_outcome (stacked : pytree) (func : pyfunc)
    (in_axes_ : list axis_spec) (out_axes : axis_spec) (args : list pytree) :
  outcome (fast_path jax_vmap stacked func in_axes_ out_axes args) =
  jax_vmap func (Leaf (Some 0) :: in_axes_) out_axes (stacked :: args).
Proof. reflexivity. Qed.

(** C4.  When the stacked value is present, a call of the built callable is
    one evaluation of [jax.vmap] and nothing else: its trace is the single
    event [EvVmap], with no call of the function per object; the object
    argument is the stacked value mapped along axis 0, the other arguments
    go with the normalized [in_axes], the result with [out_axes]; and what
    [jax.vmap] gives is what the call gives. *)
Theorem impl_fast_path (self : ObjectStack) (stacked : pytree)
    (func : pyfunc) (in_axes : in_axes_arg) (out_axes : axis_spec)
    (args : list pytree) :
  stack self = Some stacked ->
  impl jax_vmap self func in_axes out_axes args =
    ([EvVmap],
     jax_vmap func (Leaf (Some 0) :: normalize_in_axes in_axes args)
              out_axes (stacked :: args)).
Proof.
  intros Hs. unfold impl. rewrite Hs. reflexivity.
Qed.

End FastPath.

Lemma impl_fast_path_witness :
  let self := mkObjectStack [Leaf (Scal 1); Leaf (Scal 2)]
                            (Some (Leaf (Arr [Scal 1; Scal 2]))) in
  ObjectStack_init [Leaf (Scal 1); Leaf (Scal 2)] = Ok self /\
  impl vmap_reference self (fun body _ => Ok body) (InScalar (Some 0))
       (Leaf (Some 0)) [] =
  ([EvVmap], Ok (Leaf (Arr [Scal 1; Scal 2]))).
Proof.
  split; [reflexivity|].
  apply (@impl_fast_path vmap_reference
           (mkObjectStack [Leaf (Scal 1); Leaf (Scal 2)]
                          (Some (Leaf (Arr [Scal 1; Scal 2]))))
           (Leaf (Arr [Scal 1; Scal 2]))).
  reflexivity.
Defined.

(** ** Normalizing [in_axes] *)

Lemma flatten_axes_children_length
    (rec : axis_spec -> PyTreeDef -> option (list (option Z)))
    (axs : list axis_spec) (tds : list PyTreeDef) :
  length axs <> length tds -> flatten_axes_children rec axs tds = None.
Proof.
  revert tds. induction axs as [|a r IH]; intros [|t tds] H; simpl in *;
    try congruence.
  rewrite IH by congruence. destruct (rec a t); reflexivity.
Qed.

Lemma flatten_axes_tuple_length (name : string) (l : list axis_spec)
    (args : list pytree) :
  length l <> length args ->
  flatten_axes name (Some (tree_structure (Node KTuple args))) (Node KTuple l)
  = Err (PrefixError name).
Proof.
  intros H. unfold flatten_axes. simpl.
  rewrite flatten_axes_children_length; [reflexivity|].
  now rewrite length_map.
Qed.

(** C6.  A scalar or sentinel [in_axes] becomes one entry per positional
    extra argument.  A sequence whose length is not the number of
    positional extra arguments is refused before the mapped function is
    evaluated: in the loop branch by [flatten_axes], with an empty trace;
    in the vmap branch by [jax.vmap] itself (reference semantics), whatever
    the function is. *)
Theorem in_axes_normalized_or_refused :
  (forall (a : option Z) (args : list pytree),
      normalize_in_axes (InScalar a) args = repeat (Leaf a) (length args)) /\
  (forall jax_vmap (self : ObjectStack) (func : pyfunc) (l : list axis_spec)
          (out_axes : axis_spec) (args : list pytree),
      length l <> length args ->
      stack self = None ->
      impl jax_vmap self func (InSeq l) out_axes args =
        ([], Err (PrefixError "body_vmap in_axes"))) /\
  (forall (self : ObjectStack) (stacked : pytree) (func : pyfunc)
          (l : list axis_spec) (out_axes : axis_spec) (args : list pytree),
      length l <> length args ->
      stack self = Some stacked ->
      impl vmap_reference self func (InSeq l) out_axes args =
        ([EvVmap], Err (PrefixError "vmap in_axes"))).
Proof.
  split; [|split].
  - intros a args. simpl. induction args as [|x r IH]; simpl;
      [reflexivity | now rewrite IH].
  - intros jv self func l out_axes args Hlen Hs.
    unfold impl. rewrite Hs. unfold slow_path. simpl normalize_in_axes.
    unfold tree_flatten. cbn [fst snd].
    rewrite (flatten_axes_tuple_length _ _ _ Hlen). reflexivity.
  - intros self stacked func l out_axes args Hlen Hs.
    rewrite (impl_stacked_dispatch vmap_reference _ func (InSeq l) out_axes args Hs).
    unfold fast_path, mbind, emit, lift. cbn [fst snd app]. f_equal.
    unfold vmap_reference, tree_flatten. cbn [fst snd normalize_in_axes].
    rewrite (@flatten_axes_tuple_length _ (Leaf (Some 0) :: l) (stacked :: args));
      [reflexivity|].
    simpl. congruence.
Qed.

Lemma in_axes_normalized_or_refused_witness :
  normalize_in_axes (InScalar None) [Leaf (Scal 1); Leaf (Scal 2)]
    = [Leaf None; Leaf None] /\
  impl vmap_reference (mkObjectStack [Leaf (Scal 1); Node KTuple []] None)
       constant_func (InSeq [Leaf None; Leaf None]) (Leaf (Some 0))
       [Leaf (Scal 5)]
    = ([], Err (PrefixError "body_vmap in_axes")) /\
  impl vmap_reference (mkObjectStack [Leaf (Scal 1)] (Some (Leaf (Arr [Scal 1]))))
       constant_func (InSeq []) (Leaf (Some 0)) [Leaf (Scal 5)]
    = ([EvVmap], Err (PrefixError "vmap in_axes")).
Proof.
  split; [|split].
  - apply (proj1 in_axes_normalized_or_refused).
  - apply (proj1 (proj2 in_axes_normalized_or_refused)); [simpl; lia | reflexivity].
  - apply (proj2 (proj2 in_axes_normalized_or_refused)
             _ (Leaf (Arr [Scal 1]))); [simpl; lia | reflexivity].
Defined.

(** ** The loop over objects *)

Section Loop.
Variable func : pyfunc.
Variable in_tree : PyTreeDef.
Variable in_axes_flat : list (option Z).
Variable args_flat : list array.

Let call := object_result func in_tree in_axes_flat args_flat.
Let loop := object_loop func in_tree in_axes_flat args_flat.

(** A call that returns has evaluated the function exactly once. *)
Lemma object_call_trace (n : nat) (body : pytree) r :
  call n body = Ok r ->
  flatten_func_for_object_vmap func in_tree in_axes_flat n body args_flat
  = ([EvCall n], Ok r).
Proof.
  unfold call, object_result, flatten_func_for_object_vmap.
  destruct (mapM _ _) as [e|ai]; [discriminate|].
  rewrite mbind_lift_Ok.
  destruct (tree_unflatten in_tree ai) as [e|t]; [discriminate|].
  rewrite mbind_lift_Ok.
  destruct t as [x|[] cs]; try discriminate.
  unfold mbind, outcome. simpl.
  destruct (func body cs) as [e|ans]; simpl; [discriminate|].
  intros E. injection E as <-. reflexivity.
Qed.

Lemma loop_step (n : nat) (body : pytree) (rest : list pytree)
    (results : list (list array)) (out_tree : option PyTreeDef)
    (r : list array) (td : PyTreeDef) :
  call n body = Ok (r, td) ->
  loop n (body :: rest) results out_tree =
  match out_tree with
  | Some expected =>
      if treedef_neqb td expected
      then ([EvCall n], Err (StructureMismatch expected td))
      else (EvCall n :: fst (loop (S n) rest (results ++ [r]) (Some td)),
            snd (loop (S n) rest (results ++ [r]) (Some td)))
  | None =>
      (EvCall n :: fst (loop (S n) rest (results ++ [r]) (Some td)),
       snd (loop (S n) rest (results ++ [r]) (Some td)))
  end.
Proof.
  intros Hc. unfold loop. simpl object_loop.
  rewrite (object_call_trace _ _ Hc). unfold mbind, Ok. cbn [fst snd app].
  destruct out_tree as [expected|]; [|reflexivity].
  destruct (treedef_neqb td expected); reflexivity.
Qed.

Lemma loop_step_Err (n : nat) (body : pytree) (rest : list pytree)
    (results : list (list array)) (out_tree : option PyTreeDef) (e : error) :
  call n body = Err e ->
  outcome (loop n (body :: rest) results out_tree) = Err e.
Proof.
  intros Hc. unfold loop. simpl object_loop. rewrite outcome_mbind.
  unfold call, object_result in Hc. rewrite Hc. reflexivity.
Qed.

(** The loop returns exactly when every call returns and all descriptors
    are one; it then hands back the flat results in object order. *)
Lemma loop_Ok (bodies : list pytree) :
  forall n results out_tree (td : PyTreeDef) (rs : list (list array)),
  bodies <> [] ->
  calls_agree call n bodies rs td ->
  out_tree = None \/ out_tree = Some td ->
  loop n bodies results out_tree =
    (map EvCall (seq n (length bodies)), Ok (results ++ rs, Some td)).
Proof.
  induction bodies as [|b rest IH]; intros n results out_tree td rs Hne Hc Hot;
    [congruence|].
  destruct rs as [|r rs']; simpl in Hc; [contradiction|].
  destruct Hc as [Hb Hrest].
  rewrite (@loop_step _ _ _ _ _ _ _ Hb).
  assert (Hnext : loop (S n) rest (results ++ [r]) (Some td) =
                  (map EvCall (seq (S n) (length rest)),
                   Ok (results ++ r :: rs', Some td))).
  { destruct rest as [|b2 rest'].
    - destruct rs'; simpl in Hrest; [|contradiction]. reflexivity.
    - rewrite (IH (S n) (results ++ [r]) (Some td) td rs');
        [|discriminate | exact Hrest | right; reflexivity].
      rewrite <- app_assoc. reflexivity. }
  rewrite Hnext. simpl.
  destruct Hot as [->| ->]; [reflexivity|].
  unfold treedef_neqb. rewrite treedef_eqb_refl. reflexivity.
Qed.

(** Conversely, a loop that returns went through calls that agree. *)
Lemma loop_Ok_inv (bodies : list pytree) :
  forall n results out_tree res' ot',
  outcome (loop n bodies results out_tree) = Ok (res', ot') ->
  (bodies = [] /\ res' = results /\ ot' = out_tree) \/
  (bodies <> [] /\
   exists rs td, res' = results ++ rs /\ ot' = Some td /\
                 calls_agree call n bodies rs td /\
                 (out_tree = None \/ out_tree = Some td)).
Proof.
  induction bodies as [|b rest IH]; intros n results out_tree res' ot' H.
  - left. simpl in H. injection H as <- <-. repeat split.
  - right. split; [discriminate|].
    destruct (call n b) as [e|[r td1]] eqn:Hb.
    { rewrite (@loop_step_Err _ _ _ _ _ _ Hb) in H. discriminate. }
    rewrite (@loop_step _ _ _ _ _ _ _ Hb) in H.
    assert (Hcont : outcome (loop (S n) rest (results ++ [r]) (Some td1))
                    = Ok (res', ot') /\
                    (out_tree = None \/ out_tree = Some td1)).
    { destruct out_tree as [expected|].
      - unfold treedef_neqb in H.
        destruct (treedef_eqb td1 expected) eqn:E; simpl in H; [|discriminate].
        apply treedef_eqb_spec in E. subst. split; [exact H | right; reflexivity].
      - split; [exact H | left; reflexivity]. }
    destruct Hcont as [Hcont Hot].
    destruct (IH _ _ _ _ _ Hcont) as [[-> [-> ->]]|[Hne [rs [td [-> [-> [Hc Htd]]]]]]].
    + exists [r], td1. simpl. repeat split; assumption.
    + destruct Htd as [Htd|Htd]; [discriminate|]. injection Htd as ->.
      exists (r :: rs), td. rewrite <- app_assoc. simpl.
      repeat split; assumption.
Qed.

(** The first object whose descriptor is not the expected one stops the
    loop: the trace ends with its call and the error names both
    descriptors. *)
Lemma loop_mismatch (bodies : list pytree) :
  forall n results (td0 : PyTreeDef) k bk rk tdk,
  nth_error bodies k = Some bk ->
  call (n + k) bk = Ok (rk, tdk) ->
  tdk <> td0 ->
  (forall i b, (i < k)%nat -> nth_error bodies i = Some b ->
               exists ri, call (n + i) b = Ok (ri, td0)) ->
  loop n bodies results (Some td0) =
    (map EvCall (seq n (S k)), Err (StructureMismatch td0 tdk)).
Proof.
  induction bodies as [|b rest IH]; intros n results td0 k bk rk tdk Hk Hc Hne Hpre.
  - destruct k; discriminate.
  - destruct k as [|k]; simpl in Hk.
    + injection Hk as <-. rewrite Nat.add_0_r in Hc.
      rewrite (@loop_step _ _ _ _ _ _ _ Hc).
      unfold treedef_neqb.
      destruct (treedef_eqb tdk td0) eqn:E; [|reflexivity].
      apply treedef_eqb_spec in E. contradiction.
    + destruct (Hpre 0%nat b ltac:(lia) eq_refl) as [r0 H0].
      rewrite Nat.add_0_r in H0. rewrite (@loop_step _ _ _ _ _ _ _ H0).
      unfold treedef_neqb. rewrite treedef_eqb_refl. cbn [negb].
      rewrite (IH (S n) (results ++ [r0]) td0 k bk rk tdk Hk);
        [reflexivity | | exact Hne |].
      * rewrite <- Hc. f_equal. lia.
      * intros i b' Hi Hb'.
        destruct (Hpre (S i) b' ltac:(lia) Hb') as [ri Hri].
        exists ri. rewrite <- Hri. f_equal. lia.
Qed.

End Loop.

(** ** The loop branch of [impl] *)

Lemma slow_path_loop (objs : list pytree) (func : pyfunc)
    (in_axes_ : list axis_spec) (out_axes : axis_spec) (args : list pytree)
    (in_axes_flat : list (option Z)) :
  flatten_axes "body_vmap in_axes" (Some (tree_structure (Node KTuple args)))
               (Node KTuple in_axes_) = Ok in_axes_flat ->
  slow_path objs func in_axes_ out_axes args =
    (r <~ object_loop func (tree_structure (Node KTuple args)) in_axes_flat
            (tree_leaves (Node KTuple args)) 0 objs [] None ;;
     lift (assemble (snd r) out_axes (fst r))).
Proof.
  intros H. unfold slow_path, tree_flatten. cbn [fst snd].
  rewrite H, mbind_lift_Ok. reflexivity.
Qed.

Lemma first_differing (P : nat -> bool) (k : nat) :
  P k = true ->
  exists j, (j <= k)%nat /\ P j = true /\
            forall i, (i < j)%nat -> P i = false.
Proof.
  induction k as [k IH] using lt_wf_ind. intros Hk.
  destruct (existsb P (seq 0 k)) eqn:E.
  - apply existsb_exists in E. destruct E as [i [Hi HPi]].
    apply in_seq in Hi. destruct (IH i ltac:(lia) HPi) as [j [Hj [HPj Hmin]]].
    exists j. split; [lia|]. split; assumption.
  - exists k. split; [lia|]. split; [exact Hk|].
    intros i Hi. destruct (P i) eqn:HPi; [|reflexivity].
    assert (existsb P (seq 0 k) = true); [|congruence].
    apply existsb_exists. exists i. split; [apply in_seq; lia | exact HPi].
Qed.

(** C3.  In the loop branch, let the calls for objects 0 to [k] return, and
    let the result of object [k], which is not object 0, have a descriptor
    other than the one of object 0.  Then the call of the built callable
    raises the structure-mismatch error at the first object [j <= k] whose
    descriptor differs: the error carries the descriptor of object 0 as
    expected and the one of object [j] as found, the trace ends with the
    call for object [j] (no later object is evaluated), and the outcome is
    the error, not a value. *)
Theorem structure_mismatch_raised (objs : list pytree) (func : pyfunc)
    (in_axes_ : list axis_spec) (out_axes : axis_spec) (args : list pytree)
    (in_axes_flat : list (option Z)) (td0 tdk : PyTreeDef) (k : nat) :
  flatten_axes "body_vmap in_axes" (Some (tree_structure (Node KTuple args)))
               (Node KTuple in_axes_) = Ok in_axes_flat ->
  (forall i, (i <= k)%nat ->
     descriptor_at (slow_call func in_axes_flat args) objs i <> None) ->
  descriptor_at (slow_call func in_axes_flat args) objs 0 = Some td0 ->
  descriptor_at (slow_call func in_axes_flat args) objs k = Some tdk ->
  tdk <> td0 ->
  exists j tdj,
    (0 < j <= k)%nat /\
    descriptor_at (slow_call func in_axes_flat args) objs j = Some tdj /\
    tdj <> td0 /\
    (forall i, (i < j)%nat ->
       descriptor_at (slow_call func in_axes_flat args) objs i = Some td0) /\
    slow_path objs func in_axes_ out_axes args =
      (map EvCall (seq 0 (S j)), Err (StructureMismatch td0 tdj)).
Proof.
  intros Hax Hall H0 Hk Hne.
  set (call := slow_call func in_axes_flat args) in *.
  set (P := fun i => match descriptor_at call objs i with
                     | Some td => treedef_neqb td td0
                     | None => false
                     end).
  assert (HPk : P k = true).
  { unfold P. rewrite Hk. unfold treedef_neqb.
    destruct (treedef_eqb tdk td0) eqn:E; [|reflexivity].
    apply treedef_eqb_spec in E. contradiction. }
  destruct (first_differing P k HPk) as [j [Hjk [HPj Hmin]]].
  unfold P in HPj.
  destruct (descriptor_at call objs j) as [tdj|] eqn:Hj; [|discriminate].
  assert (Hnej : tdj <> td0).
  { intros ->. unfold treedef_neqb in HPj. rewrite treedef_eqb_refl in HPj.
    discriminate. }
  assert (Hj0 : (0 < j)%nat).
  { destruct j; [|lia]. rewrite H0 in Hj. congruence. }
  assert (Hpre : forall i, (i < j)%nat -> descriptor_at call objs i = Some td0).
  { intros i Hi. specialize (Hmin i Hi). unfold P in Hmin.
    destruct (descriptor_at call objs i) as [tdi|] eqn:Hdi.
    - unfold treedef_neqb in Hmin.
      destruct (treedef_eqb tdi td0) eqn:E; [|discriminate].
      apply treedef_eqb_spec in E. congruence.
    - exfalso. apply (Hall i ltac:(lia)). exact Hdi. }
  exists j, tdj. repeat split; try assumption; try lia.
  rewrite (slow_path_loop _ _ _ _ _ Hax).
  (* object 0 sets the expected descriptor, the rest of the loop meets j *)
  destruct objs as [|b0 rest]; [destruct j; discriminate|].
  unfold descriptor_at in H0. simpl in H0.
  destruct (call 0%nat b0) as [e|[r0 t0]] eqn:Hc0; [discriminate|].
  simpl in H0. injection H0 as ->.
  unfold call, slow_call in Hc0.
  rewrite (@loop_step _ _ _ _ _ _ _ _ _ _ _ Hc0).
  destruct j as [|j']; [lia|].
  unfold descriptor_at in Hj. simpl in Hj.
  destruct (nth_error rest j') as [bj|] eqn:Hbj; [|discriminate].
  destruct (call (S j') bj) as [e|[rj tj]] eqn:Hcj; [discriminate|].
  simpl in Hj. injection Hj as ->.
  rewrite (@loop_mismatch func _ in_axes_flat _ rest 1 ([] ++ [r0]) td0 j' bj rj tdj
             Hbj Hcj Hnej).
  - unfold mbind. cbn [fst snd]. reflexivity.
  - intros i b Hi Hb. specialize (Hpre (S i) ltac:(lia)).
    unfold descriptor_at in Hpre. simpl in Hpre. rewrite Hb in Hpre.
    change (1 + i)%nat with (S i).
    destruct (call (S i) b) as [e|[ri ti]] eqn:E; [discriminate|].
    simpl in Hpre. injection Hpre as ->. exists ri. exact E.
Qed.

Lemma structure_mismatch_raised_witness :
  slow_path [Node KTuple [Leaf (Scal 1)]; Leaf (Scal 2); Leaf (Scal 3)]
            identity_func [] (Leaf (Some 0)) []
  = ([EvCall 0; EvCall 1],
     Err (StructureMismatch (Node KTuple [Leaf tt]) (Leaf tt))).
Proof.
  destruct (@structure_mismatch_raised
              [Node KTuple [Leaf (Scal 1)]; Leaf (Scal 2); Leaf (Scal 3)]
              identity_func [] (Leaf (Some 0)) [] []
              (Node KTuple [Leaf tt]) (Leaf tt) 2)
    as [j [tdj [Hj [Hd [_ [Hpre ->]]]]]].
  - reflexivity.
  - intros i Hi. destruct i as [|[|[|i]]]; [discriminate ..| lia].
  - reflexivity.
  - reflexivity.
  - discriminate.
  - destruct j as [|[|[|j]]]; try lia.
    + injection Hd as <-. reflexivity.
    + specialize (Hpre 1%nat ltac:(lia)). discriminate.
Defined.

(** ** Assembling the output *)

Lemma mapM_total {A B} (f : A -> res B) (l : list A) :
  (forall x, In x l -> exists y, f x = Ok y) -> exists ys, mapM f l = Ok ys.
Proof.
  induction l as [|x r IH]; intros H; simpl.
  - exists []. reflexivity.
  - destruct (H x (or_introl eq_refl)) as [y ->].
    destruct IH as [ys ->]; [intros z Hz; apply H; right; exact Hz|].
    exists (y :: ys). reflexivity.
Qed.

Lemma flatten_axes_prefix_length (ax : axis_spec) :
  forall (td : PyTreeDef) (axes : list (option Z)),
  flatten_axes_prefix ax td = Some axes -> length axes = num_leaves td.
Proof.
  induction ax as [a|k axs IH] using rose_ind'; intros td axes; simpl.
  - intros E. injection E as <-. apply repeat_length.
  - destruct td as [[]|k' tds]; [discriminate|].
    destruct (node_kind_eq_dec k k'); [|discriminate].
    simpl. clear k k' e. revert tds axes.
    induction IH as [|a r Ha _ IHr]; intros [|t tds] axes; simpl;
      try discriminate.
    + intros E. injection E as <-. reflexivity.
    + destruct (flatten_axes_prefix a t) as [l1|] eqn:E1; [|discriminate].
      destruct (flatten_axes_children flatten_axes_prefix r tds) as [l2|] eqn:E2;
        [|discriminate].
      intros E. injection E as <-. rewrite length_app.
      rewrite (Ha _ _ E1), (IHr _ _ E2). reflexivity.
Qed.

Lemma object_result_flatten (func : pyfunc) (in_tree : PyTreeDef)
    (in_axes_flat : list (option Z)) (args_flat : list array)
    (n : nat) (body : pytree) (r : list array) (td : PyTreeDef) :
  object_result func in_tree in_axes_flat args_flat n body = Ok (r, td) ->
  exists ans : pytree, r = tree_leaves ans /\ td = tree_structure ans.
Proof.
  unfold object_result, flatten_func_for_object_vmap.
  destruct (mapM _ _) as [e|ai]; [discriminate|].
  rewrite mbind_lift_Ok.
  destruct (tree_unflatten in_tree ai) as [e|t]; [discriminate|].
  rewrite mbind_lift_Ok.
  destruct t as [x|[] cs]; try discriminate.
  unfold mbind, outcome. simpl.
  destruct (func body cs) as [e|ans]; simpl; [discriminate|].
  intros E. injection E as <- <-. exists ans. split; reflexivity.
Qed.

Lemma calls_agree_lengths call (bodies : list pytree) :
  forall n rs td,
  (forall i b r t, call i b = Ok (r, t) -> length r = num_leaves t) ->
  calls_agree call n bodies rs td ->
  length rs = length bodies /\ Forall (fun r => length r = num_leaves td) rs.
Proof.
  induction bodies as [|b rest IH]; intros n [|r rs] td Hcall H; simpl in H;
    try contradiction.
  - split; [reflexivity | constructor].
  - destruct H as [Hb Hrest]. destruct (IH _ _ _ Hcall Hrest) as [Hl Hf].
    split; [simpl; now rewrite Hl|].
    constructor; [apply (Hcall _ _ _ _ Hb) | exact Hf].
Qed.

Lemma slow_call_length func in_axes_flat args i b r t :
  slow_call func in_axes_flat args i b = Ok (r, t) -> length r = num_leaves t.
Proof.
  intros H. apply object_result_flatten in H. destruct H as [ans [-> ->]].
  rewrite length_tree_leaves. symmetry. apply num_leaves_structure.
Qed.

(** What [zip_axes] pairs at position [i]. *)
Lemma zip_axes_nth (axes : list (option Z)) (rs : list (list array)) (m : nat) :
  rs <> [] -> Forall (fun r => length r = m) rs -> length axes = m ->
  length (zip_axes axes rs) = m /\
  forall i a, nth_error axes i = Some a ->
    nth_error (zip_axes axes rs) i = Some (a, parts_at i rs).
Proof.
  intros Hne Hall Hlen.
  destruct (zip_star_spec (Scal 0) Hne Hall) as [Hzl Hz].
  destruct rs as [|r0 rs']; [congruence|].
  unfold zip_axes. split.
  - rewrite length_combine, Hzl, Hlen. apply Nat.min_id.
  - intros i a Hi. apply nth_error_combine; [exact Hi|].
    apply Hz. rewrite <- Hlen. apply nth_error_Some. congruence.
Qed.

(** The assembled value, leaf by leaf. *)
Lemma assemble_Ok (td : PyTreeDef) (out_axes : axis_spec)
    (rs : list (list array)) (v : pytree) :
  rs <> [] -> Forall (fun r => length r = num_leaves td) rs ->
  assemble (Some td) out_axes rs = Ok v ->
  exists out_axes_flat,
    flatten_axes "body_vmap out_axes" (Some td) out_axes = Ok out_axes_flat /\
    length out_axes_flat = num_leaves td /\
    tree_structure v = td /\
    forall i a, nth_error out_axes_flat i = Some a ->
      exists leaf, nth_error (tree_leaves v) i = Some leaf /\
                   assemble_leaf (a, parts_at i rs) = Ok leaf.
Proof.
  intros Hne Hall. unfold assemble.
  destruct (flatten_axes _ (Some td) out_axes) as [e|axes] eqn:Eax;
    [discriminate|].
  simpl rbind.
  destruct (mapM assemble_leaf (zip_axes axes rs)) as [e|leaves] eqn:El;
    [discriminate|].
  simpl rbind. intros Hv. apply tree_unflatten_Ok in Hv. destruct Hv as [Htd Hls].
  exists axes. split; [reflexivity|].
  assert (Hlen : length axes = num_leaves td).
  { unfold flatten_axes in Eax.
    destruct (flatten_axes_prefix out_axes td) eqn:E; [|discriminate].
    injection Eax as <-. apply (flatten_axes_prefix_length _ _ E). }
  split; [exact Hlen|]. split; [exact Htd|].
  intros i a Hi.
  destruct (@zip_axes_nth _ _ _ Hne Hall Hlen) as [_ Hz].
  destruct (mapM_Ok_nth _ _ El i (Hz i a Hi)) as [leaf [Hleaf Hasm]].
  exists leaf. rewrite Hls. split; assumption.
Qed.

(** The output can be assembled as soon as every leaf can. *)
Lemma assemble_total (td : PyTreeDef) (out_axes : axis_spec)
    (rs : list (list array)) (out_axes_flat : list (option Z)) :
  rs <> [] -> Forall (fun r => length r = num_leaves td) rs ->
  flatten_axes "body_vmap out_axes" (Some td) out_axes = Ok out_axes_flat ->
  (forall i a, nth_error out_axes_flat i = Some a ->
     exists leaf, assemble_leaf (a, parts_at i rs) = Ok leaf) ->
  exists v, assemble (Some td) out_axes rs = Ok v.
Proof.
  intros Hne Hall Eax Hleaves. unfold assemble. rewrite Eax. simpl rbind.
  assert (Hlen : length out_axes_flat = num_leaves td).
  { unfold flatten_axes in Eax.
    destruct (flatten_axes_prefix out_axes td) eqn:E; [|discriminate].
    injection Eax as <-. apply (flatten_axes_prefix_length _ _ E). }
  destruct (@zip_axes_nth _ _ _ Hne Hall Hlen) as [Hzl Hz].
  destruct (mapM_total assemble_leaf (zip_axes out_axes_flat rs)) as [leaves El].
  { intros x Hx. apply In_nth_error in Hx. destruct Hx as [i Hi].
    assert (Hi' : (i < length out_axes_flat)%nat).
    { rewrite Hlen, <- Hzl. apply nth_error_Some. congruence. }
    destruct (nth_error out_axes_flat i) as [a|] eqn:Ea;
      [|apply nth_error_None in Ea; lia].
    rewrite (Hz i a Ea) in Hi. injection Hi as <-. apply (Hleaves i a Ea). }
  rewrite El. simpl rbind. apply tree_unflatten_total.
  rewrite (mapM_Ok_length _ _ El). exact Hzl.
Qed.

(** C5.  When the loop branch returns a value [v]: the calls for all
    objects returned flat results [rs] (in object order) with one
    descriptor [td]; [out_axes] was broadcast to one entry per leaf of
    [td]; [v] has the structure [td]; at a leaf position whose entry is the
    sentinel, [v] holds what the first object's result holds there, whatever
    the other objects gave; at a leaf position with an integer entry, [v]
    holds the per-object values of that position stacked along that axis in
    object order. *)
Theorem slow_path_output_leaves (objs : list pytree) (func : pyfunc)
    (in_axes_ : list axis_spec) (out_axes : axis_spec) (args : list pytree)
    (v : pytree) :
  outcome (slow_path objs func in_axes_ out_axes args) = Ok v ->
  exists in_axes_flat rs td out_axes_flat,
    flatten_axes "body_vmap in_axes" (Some (tree_structure (Node KTuple args)))
                 (Node KTuple in_axes_) = Ok in_axes_flat /\
    calls_agree (slow_call func in_axes_flat args) 0 objs rs td /\
    length rs = length objs /\
    flatten_axes "body_vmap out_axes" (Some td) out_axes = Ok out_axes_flat /\
    length out_axes_flat = num_leaves td /\
    tree_structure v = td /\
    forall i a, nth_error out_axes_flat i = Some a ->
      match a with
      | None => nth_error (tree_leaves v) i = nth_error (hd [] rs) i
      | Some axis =>
          exists leaf, nth_error (tree_leaves v) i = Some leaf /\
                       jnp_stack (parts_at i rs) axis = Ok leaf
      end.
Proof.
  intros Hv.
  destruct (flatten_axes "body_vmap in_axes"
              (Some (tree_structure (Node KTuple args))) (Node KTuple in_axes_))
    as [e|in_axes_flat] eqn:Ein.
  { unfold slow_path, tree_flatten in Hv. cbn [fst snd] in Hv.
    rewrite Ein in Hv. discriminate. }
  rewrite (slow_path_loop _ _ _ _ _ Ein), outcome_mbind in Hv.
  destruct (outcome (object_loop _ _ _ _ _ _ _ _)) as [e|[res' ot']] eqn:Eloop;
    [discriminate|].
  destruct (loop_Ok_inv _ _ _ _ _ _ _ _ Eloop)
    as [[_ [_ ->]]|[Hne [rs [td [-> [-> [Hc _]]]]]]].
  { discriminate. }
  cbn [fst snd app outcome lift] in Hv.
  destruct (@calls_agree_lengths _ _ _ _ _
              (@slow_call_length func in_axes_flat args) Hc) as [Hl Hf].
  assert (Hrs : rs <> []).
  { destruct rs; [|discriminate]. destruct objs; [congruence | discriminate]. }
  destruct (@assemble_Ok _ _ _ _ Hrs Hf Hv) as [axes [Eax [Hlen [Htd Hleaves]]]].
  exists in_axes_flat, rs, td, axes. repeat split; try assumption.
  intros i a Hi. destruct (Hleaves i a Hi) as [leaf [Hleaf Hasm]].
  destruct a as [axis|].
  - exists leaf. split; assumption.
  - rewrite Hleaf. unfold assemble_leaf in Hasm. simpl in Hasm.
    destruct rs as [|r0 rs']; [congruence|]. simpl in *.
    injection Hasm as <-. symmetry. apply nth_error_nth_lt.
    inversion Hf; subst. rewrite H1, <- Hlen. apply nth_error_Some. congruence.
Qed.

(** Two objects that disagree on a leaf declared unmapped: the first
    object's value comes out. *)
Lemma slow_path_output_leaves_witness :
  let objs := [Node KTuple [Leaf (Scal 1)]; Leaf (Scal 2)] in
  let func : pyfunc :=
    fun body _ => Ok (Node KTuple [Leaf (Scal 9);
                                   Leaf (hd (Scal 0) (tree_leaves body))]) in
  let out_axes := Node KTuple [Leaf (Some 0); Leaf None] in
  let v := Node KTuple [Leaf (Arr [Scal 9; Scal 9]); Leaf (Scal 1)] in
  outcome (slow_path objs func [] out_axes []) = Ok v /\
  exists in_axes_flat rs td out_axes_flat,
    flatten_axes "body_vmap in_axes"
                 (Some (@tree_structure array (Node KTuple [])))
                 (Node KTuple []) = Ok in_axes_flat /\
    calls_agree (slow_call func in_axes_flat []) 0 objs rs td /\
    length rs = length objs /\
    flatten_axes "body_vmap out_axes" (Some td) out_axes = Ok out_axes_flat /\
    length out_axes_flat = num_leaves td /\
    tree_structure v = td /\
    forall i a, nth_error out_axes_flat i = Some a ->
      match a with
      | None => nth_error (tree_leaves v) i = nth_error (hd [] rs) i
      | Some axis =>
          exists leaf, nth_error (tree_leaves v) i = Some leaf /\
                       jnp_stack (parts_at i rs) axis = Ok leaf
      end.
Proof.
  split; [reflexivity|].
  apply (@slow_path_output_leaves
           [Node KTuple [Leaf (Scal 1)]; Leaf (Scal 2)]
           (fun body _ => Ok (Node KTuple [Leaf (Scal 9);
                                           Leaf (hd (Scal 0) (tree_leaves body))]))
           [] (Node KTuple [Leaf (Some 0); Leaf None]) []).
  reflexivity.
Defined.

(** ** The empty stack *)

(** C7.  Construction from no objects gives a stack without stacked value.
    [vmap] takes no declaration of an output structure, so that for the
    empty stack the structure of the output is never known without
    evaluation.  A call of the callable built from the empty stack takes
    the loop branch, does no per-object work (the trace is empty) and
    signals an error, for every function, axes and arguments: the prefix
    error of [in_axes] when that is not a tree prefix of the arguments, and
    otherwise the error of [flatten_axes] reading the result descriptor
    that no evaluation has set. *)
Theorem empty_stack_call_raises jax_vmap (func : pyfunc)
    (in_axes : in_axes_arg) (out_axes : axis_spec) (args : list pytree) :
  ObjectStack_init [] = Ok empty_stack /\
  stack empty_stack = None /\
  impl jax_vmap empty_stack func in_axes out_axes args =
    ([], Err (match flatten_axes_prefix
                      (Node KTuple (normalize_in_axes in_axes args))
                      (tree_structure (Node KTuple args)) with
              | Some _ => AttributeError
              | None => PrefixError "body_vmap in_axes"
              end)).
Proof.
  split; [reflexivity|]. split; [reflexivity|].
  unfold impl, empty_stack. cbn [stack objects].
  unfold slow_path, tree_flatten, flatten_axes. cbn [fst snd].
  destruct (flatten_axes_prefix _ _); reflexivity.
Qed.

(** ** Shapes of stacked arrays *)

Lemma shape_eqb_spec (s1 s2 : list nat) : shape_eqb s1 s2 = true <-> s1 = s2.
Proof.
  unfold shape_eqb. revert s2.
  induction s1 as [|a r IH]; intros [|b r2]; simpl;
    try (split; [discriminate | discriminate]); try (split; reflexivity).
  rewrite andb_true_iff, Nat.eqb_eq, IH. split.
  - intros [-> ->]. reflexivity.
  - intros E. injection E as -> ->. split; reflexivity.
Qed.

Lemma jnp_stack_Ok (xs : list array) (axis : Z) (y : array) :
  jnp_stack xs axis = Ok y ->
  exists x0 rest,
    xs = x0 :: rest /\
    Forall (fun x => shape x = shape x0) xs /\
    (stack_axis x0 axis <= ndim x0)%nat /\
    y = stack_at (stack_axis x0 axis) xs.
Proof.
  unfold jnp_stack. destruct xs as [|x0 rest]; [discriminate|].
  destruct (_ && _) eqn:Erange; [|discriminate].
  destruct (forallb _ _) eqn:Eshape; [|discriminate].
  intros E. injection E as <-. exists x0, rest.
  split; [reflexivity|]. split; [|split; [|reflexivity]].
  - apply Forall_forall. intros x Hx.
    rewrite forallb_forall in Eshape. apply shape_eqb_spec, Eshape, Hx.
  - apply andb_true_iff in Erange. destruct Erange as [H1 H2].
    apply Z.leb_le in H1. apply Z.ltb_lt in H2. unfold stack_axis.
    destruct (axis <? 0) eqn:E0; [apply Z.ltb_lt in E0 | apply Z.ltb_ge in E0]; lia.
Qed.

Lemma jnp_stack_same_shape (xs : list array) (axis : Z) (x0 : array)
    (rest : list array) :
  xs = x0 :: rest ->
  Forall (fun x => shape x = shape x0) xs ->
  (- (Z.of_nat (ndim x0) + 1) <= axis < Z.of_nat (ndim x0) + 1) ->
  jnp_stack xs axis = Ok (stack_at (stack_axis x0 axis) xs).
Proof.
  intros -> Hall Hrange. unfold jnp_stack.
  replace ((- (Z.of_nat (ndim x0) + 1) <=? axis) &&
           (axis <? Z.of_nat (ndim x0) + 1)) with true.
  - replace (forallb _ _) with true; [reflexivity|].
    symmetry. apply forallb_forall. intros x Hx.
    rewrite Forall_forall in Hall. apply shape_eqb_spec, Hall, Hx.
  - symmetry. apply andb_true_iff. split; [apply Z.leb_le | apply Z.ltb_lt]; lia.
Qed.

(** Stacking [n] arrays of shape [s] along axis [c] gives an array of
    shape [s] with an axis of length [n] put at position [c] (for shapes
    without an empty axis before [c]: nested lists do not record what
    follows an empty axis). *)
Lemma shape_stack_at (c : nat) :
  forall (xs : list array) (s : list nat),
  xs <> [] -> Forall (fun x => shape x = s) xs ->
  (c <= length s)%nat -> Forall (fun d => (0 < d)%nat) (firstn c s) ->
  shape (stack_at c xs) = insert_axis c (length xs) s.
Proof.
  induction c as [|c IH]; intros xs s Hne Hall Hc Hpos.
  - destruct xs as [|x0 rest]; [congruence|].
    inversion Hall; subst. reflexivity.
  - destruct s as [|m s']; simpl in Hc; [lia|].
    simpl in Hpos. inversion Hpos as [|? ? Hm Hpos']; subst.
    destruct xs as [|x0 rest]; [congruence|].
    set (xs := x0 :: rest) in *.
    assert (Hch : Forall (fun x => exists y ys, x = Arr (y :: ys) /\
                                     length (y :: ys) = m /\ shape y = s') xs).
    { apply Forall_forall. intros x Hx. rewrite Forall_forall in Hall.
      specialize (Hall x Hx). destruct x as [z|[|y ys]]; simpl in Hall;
        try discriminate.
      - injection Hall as <-. lia.
      - injection Hall as <- <-. exists y, ys. repeat split. }
    assert (H0 : exists y0 ys0, x0 = Arr (y0 :: ys0) /\
                                length (y0 :: ys0) = m /\ shape y0 = s').
    { rewrite Forall_forall in Hch. apply Hch. left. reflexivity. }
    destruct H0 as [y0 [ys0 [Hx0 [Hl0 Hs0]]]].
    assert (Hlen0 : length (children x0) = m) by (rewrite Hx0; exact Hl0).
    remember (fun j => map (fun row => nth j row (Scal 0)) (map children xs))
      as colf eqn:Ecolf.
    assert (Hst : stack_at (S c) xs =
                  Arr (map (stack_at c) (map colf (seq 0 (length (children x0)))))).
    { subst colf. reflexivity. }
    rewrite Hst, Hlen0. destruct m as [|m']; [lia|].
    simpl seq. simpl map. simpl shape. rewrite !length_map, length_seq.
    rewrite (IH (colf 0%nat) s').
    + unfold insert_axis. subst colf. rewrite !length_map. reflexivity.
    + subst colf. subst xs. discriminate.
    + subst colf. apply Forall_forall. intros z Hz.
      rewrite map_map in Hz. apply in_map_iff in Hz. destruct Hz as [x [<- Hx]].
      rewrite Forall_forall in Hch. destruct (Hch x Hx) as [y [ys [-> [_ Hy]]]].
      exact Hy.
    + lia.
    + exact Hpos'.
Qed.

(** ** Objects of different structure *)

Lemma jnp_stack_shape (xs : list array) (axis : Z) (y : array) :
  jnp_stack xs axis = Ok y ->
  Forall (fun d => (0 < d)%nat) (shape (hd (Scal 0) xs)) ->
  shape y = insert_axis (stack_axis (hd (Scal 0) xs) axis) (length xs)
                        (shape (hd (Scal 0) xs)).
Proof.
  intros Hst Hpos. apply jnp_stack_Ok in Hst.
  destruct Hst as [x0 [rest [-> [Hall [Hc ->]]]]]. simpl hd in *.
  apply shape_stack_at; [discriminate | exact Hall | exact Hc |].
  rewrite <- (firstn_skipn (stack_axis x0 axis) (shape x0)) in Hpos.
  apply Forall_app in Hpos. apply Hpos.
Qed.

(** C8.  For two or more objects that do not all have one structural
    descriptor, construction returns a stack without stacked value, and the
    built callable runs the loop branch.  For a call that is well formed
    ([in_axes] a tree prefix of the arguments, the function returning for
    every object with one common descriptor, as the loop requires of it,
    [out_axes] a tree prefix of that descriptor, the values of every mapped
    output leaf of one shape) the loop branch succeeds.  The result has
    the common descriptor, every object was evaluated once, in order, and a
    mapped output leaf is the stack of the per-object values, with the
    shape of one value and a new axis, as long as the stack is tall, at the
    out axis. *)
Theorem heterogeneous_stack_uses_loop jax_vmap (objs : list pytree)
    (func : pyfunc) (in_axes : in_axes_arg) (out_axes : axis_spec)
    (args : list pytree) :
  (2 <= length objs)%nat -> ~ uniform_structure objs ->
  ObjectStack_init objs = Ok (mkObjectStack objs None) /\
  impl jax_vmap (mkObjectStack objs None) func in_axes out_axes args =
    slow_path objs func (normalize_in_axes in_axes args) out_axes args /\
  forall in_axes_flat rs td out_axes_flat,
    flatten_axes "body_vmap in_axes" (Some (tree_structure (Node KTuple args)))
                 (Node KTuple (normalize_in_axes in_axes args))
      = Ok in_axes_flat ->
    calls_agree (slow_call func in_axes_flat args) 0 objs rs td ->
    flatten_axes "body_vmap out_axes" (Some td) out_axes = Ok out_axes_flat ->
    (forall i a, nth_error out_axes_flat i = Some (Some a) ->
       exists leaf, jnp_stack (parts_at i rs) a = Ok leaf) ->
    exists v,
      impl jax_vmap (mkObjectStack objs None) func in_axes out_axes args =
        (map EvCall (seq 0 (length objs)), Ok v) /\
      tree_structure v = td /\
      forall i a, nth_error out_axes_flat i = Some (Some a) ->
        exists leaf,
          nth_error (tree_leaves v) i = Some leaf /\
          jnp_stack (parts_at i rs) a = Ok leaf /\
          (Forall (fun d => (0 < d)%nat) (shape (hd (Scal 0) (parts_at i rs))) ->
           shape leaf =
             insert_axis (stack_axis (hd (Scal 0) (parts_at i rs)) a)
                         (length objs)
                         (shape (hd (Scal 0) (parts_at i rs)))).
Proof.
  intros Hlen Hnu.
  assert (Hinit : ObjectStack_init objs = Ok (mkObjectStack objs None)).
  { destruct (ObjectStack_init_cases objs) as [[Hu _]|[_ E]];
      [contradiction | exact E]. }
  split; [exact Hinit|]. split; [reflexivity|].
  intros in_axes_flat rs td out_axes_flat Hin Hcalls Hout Hstack.
  assert (Hne : objs <> []) by (destruct objs; [simpl in Hlen; lia | discriminate]).
  destruct (@calls_agree_lengths _ _ _ _ _
              (@slow_call_length func in_axes_flat args) Hcalls) as [Hl Hf].
  assert (Hrs : rs <> []).
  { destruct rs; [|discriminate]. destruct objs; [congruence | discriminate]. }
  destruct (@assemble_total td out_axes rs out_axes_flat Hrs Hf Hout) as [v Hv].
  { intros i [a|] Hi.
    - destruct (Hstack i a Hi) as [leaf Hleaf]. exists leaf. exact Hleaf.
    - destruct rs as [|r0 rs']; [congruence|]. eexists. reflexivity. }
  exists v.
  assert (Himpl : impl jax_vmap (mkObjectStack objs None) func in_axes out_axes args
                  = (map EvCall (seq 0 (length objs)), Ok v)).
  { unfold impl. cbn [stack objects].
    rewrite (slow_path_loop _ _ _ _ _ Hin).
    unfold slow_call in Hcalls.
    rewrite (@loop_Ok func _ in_axes_flat _ objs 0 [] None td rs Hne Hcalls
               (or_introl eq_refl)).
    unfold mbind, lift, Ok in *. cbn [fst snd app]. rewrite app_nil_r, Hv.
    reflexivity. }
  split; [exact Himpl|].
  destruct (@assemble_Ok _ _ _ _ Hrs Hf Hv) as [axes [Eax [_ [Htd Hleaves]]]].
  split; [exact Htd|].
  rewrite Hout in Eax. injection Eax as <-.
  intros i a Hi. destruct (Hleaves i (Some a) Hi) as [leaf [Hleaf Hasm]].
  exists leaf. split; [exact Hleaf|]. split; [exact Hasm|].
  intros Hpos. unfold assemble_leaf in Hasm. cbn [fst snd] in Hasm.
  rewrite (jnp_stack_shape _ _ Hasm Hpos).
  unfold parts_at at 2. rewrite length_map, Hl. reflexivity.
Qed.

Lemma heterogeneous_stack_uses_loop_witness :
  let func : pyfunc :=
    fun body _ => Ok (Leaf (Arr [hd (Scal 0) (tree_leaves body); Scal 5])) in
  ObjectStack_init mixed_objects = Ok (mkObjectStack mixed_objects None) /\
  exists v,
    impl vmap_reference (mkObjectStack mixed_objects None) func
         (InScalar None) (Leaf (Some 1)) []
      = ([EvCall 0; EvCall 1], Ok v) /\
    tree_structure v = Leaf tt /\
    forall i a, nth_error [Some 1] i = Some (Some a) ->
      exists leaf,
        nth_error (tree_leaves v) i = Some leaf /\
        jnp_stack (parts_at i [[Arr [Scal 1; Scal 5]]; [Arr [Scal 2; Scal 5]]]) a
          = Ok leaf /\
        (Forall (fun d => (0 < d)%nat)
                (shape (hd (Scal 0)
                   (parts_at i [[Arr [Scal 1; Scal 5]]; [Arr [Scal 2; Scal 5]]]))) ->
         shape leaf =
           insert_axis
             (stack_axis (hd (Scal 0)
                (parts_at i [[Arr [Scal 1; Scal 5]]; [Arr [Scal 2; Scal 5]]])) a)
             (length mixed_objects)
             (shape (hd (Scal 0)
                (parts_at i [[Arr [Scal 1; Scal 5]]; [Arr [Scal 2; Scal 5]]])))).
Proof.
  intros func.
  destruct (@heterogeneous_stack_uses_loop vmap_reference mixed_objects func
              (InScalar None) (Leaf (Some 1)) [])
    as [Hinit [_ Hrun]].
  - simpl. lia.
  - intros [_ H]. inversion H as [|? ? _ H2]; subst.
    inversion H2 as [|? ? H3 _]; subst. discriminate.
  - split; [exact Hinit|].
    apply (Hrun [] [[Arr [Scal 1; Scal 5]]; [Arr [Scal 2; Scal 5]]]
                (Leaf tt) [Some 1]).
    + reflexivity.
    + simpl. repeat split.
    + reflexivity.
    + intros i a Hi. destruct i as [|[|i]]; simpl in Hi; try discriminate.
      injection Hi as <-. eexists. reflexivity.
Defined.

(** ** Reordering the objects *)

Lemma calls_agree_nth call (bodies : list pytree) :
  forall n rs td i,
  calls_agree call n bodies rs td -> (i < length bodies)%nat ->
  call (n + i)%nat (nth i bodies (Leaf (Scal 0))) = Ok (nth i rs [], td).
Proof.
  induction bodies as [|b rest IH]; intros n [|r rs] td i H Hi; simpl in *;
    try contradiction; try lia.
  destruct H as [Hb Hrest]. destruct i as [|i].
  - rewrite Nat.add_0_r. exact Hb.
  - replace (n + S i)%nat with (S n + i)%nat by lia.
    apply IH; [exact Hrest | lia].
Qed.






(** ** Reordering along the stacking axis *)

Lemma rect_children (ys : list array) :
  rect (Arr ys) = true ->
  Forall (fun y => rect y = true /\ shape y = shape (hd (Scal 0) ys)) ys.
Proof.
  simpl. intros H. apply andb_true_iff in H. destruct H as [Hr Hs].
  rewrite forallb_forall in Hs. apply Forall_forall. intros y Hy. split.
  - clear Hs. induction ys as [|z r IH]; [contradiction|].
    simpl in Hr. apply andb_true_iff in Hr. destruct Hr as [Hz Hr].
    destruct Hy as [<-|Hy]; [exact Hz | apply IH; assumption].
  - apply shape_eqb_spec, Hs, Hy.
Qed.

(** The entries of a column of rectangular, equally shaped arrays. *)
Lemma column_entries (xs : list array) (m : nat) (s' : list nat) (j : nat) :
  Forall (fun x => rect x = true) xs ->
  Forall (fun x => shape x = m :: s') xs ->
  (j < m)%nat ->
  Forall (fun y => rect y = true /\ shape y = s')
         (map (fun x => nth j (children x) (Scal 0)) xs).
Proof.
  intros Hr Hs Hj. apply Forall_forall. intros y Hy.
  apply in_map_iff in Hy. destruct Hy as [x [<- Hx]].
  rewrite Forall_forall in Hr, Hs. specialize (Hr x Hx). specialize (Hs x Hx).
  destruct x as [z|ys]; [discriminate|]. simpl children.
  destruct ys as [|y0 ys']; simpl in Hs; [injection Hs as <-; lia|].
  injection Hs as Hlen Hs0.
  pose proof (rect_children _ Hr) as Hch. rewrite Forall_forall in Hch.
  assert (Hin : In (nth j (y0 :: ys') (Scal 0)) (y0 :: ys')).
  { apply nth_In. simpl. lia. }
  destruct (Hch _ Hin) as [Hry Hsy]. split; [exact Hry|].
  rewrite Hsy. exact Hs0.
Qed.

Lemma columns_spec (xs : list array) (x0 : array) (rest : list array) :
  xs = x0 :: rest ->
  columns (map children xs) =
  map (fun j => map (fun x => nth j (children x) (Scal 0)) xs)
      (seq 0 (length (children x0))).
Proof.
  intros ->. unfold columns. cbn [map]. apply map_ext. intros j.
  cbn [map]. f_equal. rewrite map_map. reflexivity.
Qed.


(** ** The loop branch, in and out *)

Lemma slow_path_Ok_inv (objs : list pytree) (func : pyfunc)
    (in_axes_ : list axis_spec) (out_axes : axis_spec) (args : list pytree)
    (v : pytree) :
  outcome (slow_path objs func in_axes_ out_axes args) = Ok v ->
  exists in_axes_flat rs td,
    flatten_axes "body_vmap in_axes" (Some (tree_structure (Node KTuple args)))
                 (Node KTuple in_axes_) = Ok in_axes_flat /\
    objs <> [] /\
    calls_agree (slow_call func in_axes_flat args) 0 objs rs td /\
    assemble (Some td) out_axes rs = Ok v.
Proof.
  intros Hv.
  destruct (flatten_axes "body_vmap in_axes"
              (Some (tree_structure (Node KTuple args))) (Node KTuple in_axes_))
    as [e|in_axes_flat] eqn:Ein.
  { unfold slow_path, tree_flatten in Hv. cbn [fst snd] in Hv.
    rewrite Ein in Hv. discriminate. }
  rewrite (slow_path_loop _ _ _ _ _ Ein), outcome_mbind in Hv.
  destruct (outcome (object_loop _ _ _ _ _ _ _ _)) as [e|[res' ot']] eqn:Eloop;
    [discriminate|].
  destruct (loop_Ok_inv _ _ _ _ _ _ _ _ Eloop)
    as [[_ [_ ->]]|[Hne [rs [td [-> [-> [Hc _]]]]]]].
  { discriminate. }
  cbn [fst snd app outcome lift] in Hv.
  exists in_axes_flat, rs, td. repeat split; assumption.
Qed.

Lemma slow_path_Ok_intro (objs : list pytree) (func : pyfunc)
    (in_axes_ : list axis_spec) (out_axes : axis_spec) (args : list pytree)
    (in_axes_flat : list (option Z)) (rs : list (list array))
    (td : PyTreeDef) (v : pytree) :
  flatten_axes "body_vmap in_axes" (Some (tree_structure (Node KTuple args)))
               (Node KTuple in_axes_) = Ok in_axes_flat ->
  objs <> [] ->
  calls_agree (slow_call func in_axes_flat args) 0 objs rs td ->
  assemble (Some td) out_axes rs = Ok v ->
  slow_path objs func in_axes_ out_axes args =
    (map EvCall (seq 0 (length objs)), Ok v).
Proof.
  intros Hin Hne Hc Hv. rewrite (slow_path_loop _ _ _ _ _ Hin).
  unfold slow_call in Hc.
  rewrite (@loop_Ok func _ in_axes_flat _ objs 0 [] None td rs Hne Hc
             (or_introl eq_refl)).
  unfold mbind, lift, Ok in *. cbn [fst snd app]. rewrite app_nil_r, Hv.
  reflexivity.
Qed.

Lemma calls_agree_rs (func : pyfunc) (in_axes_flat : list (option Z))
    (args : list pytree) (objs : list pytree) (rs : list (list array))
    (td : PyTreeDef) :
  objs <> [] ->
  calls_agree (slow_call func in_axes_flat args) 0 objs rs td ->
  length rs = length objs /\ rs <> [] /\
  Forall (fun r => length r = num_leaves td) rs.
Proof.
  intros Hne Hc.
  destruct (@calls_agree_lengths _ _ _ _ _
              (@slow_call_length func in_axes_flat args) Hc) as [Hl Hf].
  split; [exact Hl|]. split; [|exact Hf].
  destruct rs; [|discriminate]. destruct objs; [congruence | discriminate].
Qed.





(** ** The two branches on well-formed inputs *)

Lemma mapM_map {A B C} (f : B -> res C) (h : A -> B) (l : list A) :
  mapM f (map h l) = mapM (fun x => f (h x)) l.
Proof.
  induction l as [|x r IH]; simpl; [reflexivity | now rewrite IH].
Qed.

Lemma combine_app_same {A B} (l1 l2 : list A) (a1 a2 : list B) :
  length l1 = length a1 ->
  combine (l1 ++ l2) (a1 ++ a2) = combine l1 a1 ++ combine l2 a2.
Proof.
  revert a1. induction l1 as [|x r IH]; intros [|y a1] H; simpl in *;
    try discriminate; [reflexivity|].
  f_equal. apply IH. lia.
Qed.

Lemma combine_map_snd {A B C} (f : A * B -> C) (l : list A) (a : list B) :
  combine l (map f (combine l a)) = map (fun q => (fst q, f q)) (combine l a).
Proof.
  revert a. induction l as [|x r IH]; intros [|y a]; simpl; try reflexivity.
  f_equal. apply IH.
Qed.

Lemma map_nth_seq {A} (d : A) (l : list A) :
  map (fun j => nth j l d) (seq 0 (length l)) = l.
Proof.
  apply nth_error_ext. intros n.
  destruct (Nat.lt_ge_cases n (length l)) as [H|H].
  - rewrite nth_error_map, nth_error_seq.
    replace (n <? length l)%nat with true by (symmetry; apply Nat.ltb_lt; exact H).
    simpl. symmetry. apply nth_error_nth_lt. exact H.
  - rewrite (proj2 (nth_error_None l n) H).
    apply nth_error_None. rewrite length_map, length_seq. exact H.
Qed.

Lemma zip_star_columns {A} (d : A) (m : nat) (ls : list (list A)) :
  ls <> [] -> Forall (fun l => length l = m) ls ->
  zip_star ls = map (fun i => map (fun l => nth i l d) ls) (seq 0 m).
Proof.
  intros Hne Hall. destruct (zip_star_spec d Hne Hall) as [Hlen Hnth].
  apply nth_error_ext. intros n.
  destruct (Nat.lt_ge_cases n m) as [H|H].
  - rewrite (Hnth n H), nth_error_map, nth_error_seq.
    replace (n <? m)%nat with true by (symmetry; apply Nat.ltb_lt; exact H).
    reflexivity.
  - rewrite (proj2 (nth_error_None _ n)) by lia.
    symmetry. apply nth_error_None. rewrite length_map, length_seq. exact H.
Qed.

Lemma mapM_stack_axis0 (cols : list (list array)) (ys : list array) :
  mapM (fun x => jnp_stack x 0) cols = Ok ys -> ys = map Arr cols.
Proof.
  revert ys. induction cols as [|c r IH]; simpl; intros ys H.
  - injection H as <-. reflexivity.
  - destruct (jnp_stack c 0) as [e|y] eqn:Ey; [discriminate|]. simpl in H.
    destruct (mapM _ r) as [e|ys'] eqn:Er; [discriminate|]. simpl in H.
    injection H as <-. apply jnp_stack_axis0 in Ey. subst y.
    f_equal. apply IH. reflexivity.
Qed.

(** What construction stores as stacked value. *)
Lemma stacked_value_leaves (objs : list pytree) (st : ObjectStack)
    (stacked : pytree) :
  ObjectStack_init objs = Ok st -> stack st = Some stacked ->
  uniform_structure objs /\
  objects st = objs /\
  tree_structure stacked = tree_structure (hd (Leaf (Scal 0)) objs) /\
  tree_leaves stacked =
    map (fun j => Arr (leaves_at j objs))
        (seq 0 (num_leaves (hd (Leaf (Scal 0)) objs))).
Proof.
  intros Hinit Hst.
  destruct (ObjectStack_init_stacked _ Hinit Hst)
    as [Hu [-> [_ [ys [Eys Es]]]]].
  apply tree_unflatten_Ok in Es. destruct Es as [Htd Hls].
  split; [exact Hu|]. split; [reflexivity|]. split; [exact Htd|].
  rewrite Hls. apply mapM_stack_axis0 in Eys. rewrite Eys.
  destruct (uniform_leaves Hu) as [Hne Hlen].
  rewrite (zip_star_columns (Scal 0) Hne Hlen), map_map.
  apply map_ext. intros j. unfold leaves_at. rewrite map_map. reflexivity.
Qed.

(** Rebuilding the argument tuple with the object put in front. *)
Lemma tree_unflatten_cons (body : pytree) (tds : list PyTreeDef)
    (ai : list array) :
  tree_unflatten (Node KTuple (tree_structure body :: tds))
                 (tree_leaves body ++ ai) =
  (t <- tree_unflatten (Node KTuple tds) ai ;;
   match t with
   | Node KTuple cs => Ok (Node KTuple (body :: cs))
   | _ => Err TypeError
   end).
Proof.
  unfold tree_unflatten. simpl. rewrite unflatten_aux_flatten.
  destruct (unflatten_children unflatten_aux tds ai) as [[ts [|x r]]|];
    reflexivity.
Qed.

Lemma tree_unflatten_tuple (tds : list PyTreeDef) (ai : list array)
    (t : pytree) :
  tree_unflatten (Node KTuple tds) ai = Ok t -> exists cs, t = Node KTuple cs.
Proof.
  intros H. apply tree_unflatten_Ok in H. destruct H as [H _].
  destruct t as [x|k cs]; simpl in H; [discriminate|].
  injection H as -> _. exists cs. reflexivity.
Qed.

Lemma combine_repeat {A B} (l : list A) (b : B) :
  combine l (repeat b (length l)) = map (fun x => (x, b)) l.
Proof.
  induction l as [|x r IH]; simpl; [reflexivity | now rewrite IH].
Qed.

Lemma combine_map_const {A B} (l : list A) (b : B) :
  combine l (map (fun _ => b) l) = map (fun x => (x, b)) l.
Proof.
  induction l as [|x r IH]; simpl; [reflexivity | now rewrite IH].
Qed.

Lemma calls_agree_intro call (bodies : list pytree) :
  forall n rs td,
  length rs = length bodies ->
  (forall i, (i < length bodies)%nat ->
     call (n + i)%nat (nth i bodies (Leaf (Scal 0))) = Ok (nth i rs [], td)) ->
  calls_agree call n bodies rs td.
Proof.
  induction bodies as [|b rest IH]; intros n [|r rs] td Hl H; simpl in *;
    try discriminate; [exact I|].
  split.
  - specialize (H 0%nat ltac:(lia)). rewrite Nat.add_0_r in H. exact H.
  - apply IH; [lia|]. intros i Hi.
    replace (S n + i)%nat with (n + S i)%nat by lia.
    apply (H (S i)). lia.
Qed.

Section Agreement.
Variable func : pyfunc.
Variable objs : list pytree.
Variable stacked : pytree.
Variable args : list pytree.
Variable in_axes_flat : list (option Z).

Hypothesis Huniform : uniform_structure objs.
Hypothesis Hstructure :
  tree_structure stacked = tree_structure (hd (Leaf (Scal 0)) objs).
Hypothesis Hleaves :
  tree_leaves stacked =
    map (fun j => Arr (leaves_at j objs))
        (seq 0 (num_leaves (hd (Leaf (Scal 0)) objs))).
Hypothesis Hlength :
  length (tree_leaves (Node KTuple args)) = length in_axes_flat.
Hypothesis Hfit :
  mapped_axes_fit (length objs) (tree_leaves (Node KTuple args)) in_axes_flat.

Lemma object_leaves_length (i : nat) :
  (i < length objs)%nat ->
  length (tree_leaves (nth i objs (Leaf (Scal 0)))) =
  num_leaves (hd (Leaf (Scal 0)) objs).
Proof.
  intros Hi. destruct Huniform as [_ Hall]. rewrite Forall_forall in Hall.
  rewrite length_tree_leaves, <- num_leaves_structure.
  rewrite (Hall _ (nth_In objs _ Hi)). apply num_leaves_structure.
Qed.

(** The canonical axes that [jax.vmap] computes for its inputs. *)
Lemma reference_axes :
  let axes := map (fun _ => Some 0%nat) (tree_leaves stacked) ++
              map (fun q => option_map Z.to_nat (snd q))
                  (combine (tree_leaves (Node KTuple args)) in_axes_flat) in
  mapM canonical_in_axis
       (combine (tree_leaves stacked ++ tree_leaves (Node KTuple args))
                (repeat (Some 0) (num_leaves (tree_structure stacked))
                 ++ in_axes_flat)) = Ok axes /\
  combine (tree_leaves stacked ++ tree_leaves (Node KTuple args)) axes =
    mapped_stack stacked ++ mapped_args args in_axes_flat.
Proof.
  intros axes. subst axes. split.
  - rewrite num_leaves_structure, <- length_tree_leaves.
    rewrite combine_app_same by (now rewrite repeat_length).
    rewrite mapM_app, combine_repeat, mapM_map.
    rewrite (mapM_all_Ok _ (fun _ => Some 0%nat)).
    + simpl rbind. rewrite (mapM_all_Ok _ (fun q => option_map Z.to_nat (snd q))).
      * reflexivity.
      * intros q Hq. unfold mapped_axes_fit in Hfit.
        rewrite Forall_forall in Hfit. specialize (Hfit q Hq).
        unfold canonical_in_axis. destruct (snd q) as [a|]; [|reflexivity].
        destruct Hfit as [Ha _]. unfold canonicalize_axis.
        replace ((- Z.of_nat (ndim (fst q)) <=? a) && (a <? Z.of_nat (ndim (fst q))))
          with true
          by (symmetry; apply andb_true_iff; split;
              [apply Z.leb_le | apply Z.ltb_lt]; lia).
        replace (a <? 0) with false by (symmetry; apply Z.ltb_ge; lia).
        reflexivity.
    + intros x Hx. rewrite Hleaves in Hx. apply in_map_iff in Hx.
      destruct Hx as [j [<- _]]. reflexivity.
  - rewrite combine_app_same by (now rewrite length_map).
    f_equal.
    + apply combine_map_const.
    + apply combine_map_snd.
Qed.

(** All mapped axes have as many entries as there are objects. *)
Lemma reference_sizes :
  Forall (eq (length objs))
         (mapped_sizes (mapped_stack stacked ++ mapped_args args in_axes_flat)).
Proof.
  unfold mapped_sizes. rewrite flat_map_app. apply Forall_app. split.
  - apply Forall_flat_map. apply Forall_forall. intros q Hq.
    unfold mapped_stack in Hq. rewrite Hleaves, map_map in Hq.
    apply in_map_iff in Hq. destruct Hq as [j [<- _]]. simpl.
    constructor; [|constructor]. unfold leaves_at. now rewrite length_map.
  - apply Forall_flat_map. apply Forall_forall. intros q Hq.
    unfold mapped_args in Hq. apply in_map_iff in Hq.
    destruct Hq as [q0 [<- Hq0]]. unfold mapped_axes_fit in Hfit.
    rewrite Forall_forall in Hfit. specialize (Hfit q0 Hq0). simpl.
    destruct (snd q0) as [a|]; simpl; [|constructor].
    destruct Hfit as [_ Hn]. constructor; [now rewrite Hn | constructor].
Qed.

(** Slice [i] of the inputs: the leaves of object [i], then the arguments
    that the loop selects for object [i]. *)
Lemma reference_slices (i : nat) :
  (i < length objs)%nat ->
  mapM (take_slice i) (mapped_stack stacked ++ mapped_args args in_axes_flat) =
  (ai <- indexed_args in_axes_flat (tree_leaves (Node KTuple args)) i ;;
   Ok (tree_leaves (nth i objs (Leaf (Scal 0))) ++ ai)).
Proof.
  intros Hi. rewrite mapM_app.
  assert (H1 : mapM (take_slice i) (mapped_stack stacked) =
               Ok (tree_leaves (nth i objs (Leaf (Scal 0))))).
  { unfold mapped_stack. rewrite Hleaves, map_map, mapM_map.
    rewrite (mapM_all_Ok _
               (fun j => nth j (tree_leaves (nth i objs (Leaf (Scal 0)))) (Scal 0))).
    - rewrite <- (object_leaves_length Hi), map_nth_seq. reflexivity.
    - intros j _. unfold take_slice. cbn [fst snd].
      apply (getitem_slices 0 i). simpl. unfold item, leaves_at.
      rewrite nth_error_map, (nth_error_nth_lt objs (Leaf (Scal 0)) Hi).
      reflexivity. }
  assert (H2 : mapM (take_slice i) (mapped_args args in_axes_flat) =
               indexed_args in_axes_flat (tree_leaves (Node KTuple args)) i).
  { unfold mapped_args, indexed_args. rewrite mapM_map. apply mapM_ext.
    intros q Hq. unfold mapped_axes_fit in Hfit.
    rewrite Forall_forall in Hfit. specialize (Hfit q Hq).
    unfold take_slice, index_helper. cbn [fst snd].
    destruct (snd q) as [a|]; [|reflexivity]. simpl option_map.
    destruct Hfit as [Ha _].
    rewrite <- (Z2Nat.id a) at 2 by lia. rewrite tuple_repeat_nat. reflexivity. }
  rewrite H1, H2. simpl rbind.
  destruct (indexed_args _ _ _); reflexivity.
Qed.

(** The call that the loop makes for object [i] is the call that the
    reference semantics makes on slice [i], flattened. *)
Lemma loop_call_is_reference_call (i : nat) :
  (i < length objs)%nat ->
  slow_call func in_axes_flat args i (nth i objs (Leaf (Scal 0))) =
  (ans <- reference_call func (tree_structure (Node KTuple (stacked :: args)))
            (mapped_stack stacked ++ mapped_args args in_axes_flat) i ;;
   Ok (tree_flatten ans)).
Proof.
  intros Hi. unfold reference_call. rewrite (reference_slices Hi).
  unfold slow_call, object_result, flatten_func_for_object_vmap.
  fold (indexed_args in_axes_flat (tree_leaves (Node KTuple args)) i).
  destruct (indexed_args in_axes_flat (tree_leaves (Node KTuple args)) i)
    as [e|ai]; [reflexivity|].
  rewrite mbind_lift_Ok. simpl rbind.
  assert (Hbody : tree_structure stacked =
                  tree_structure (nth i objs (Leaf (Scal 0)))).
  { rewrite Hstructure. destruct Huniform as [_ Hall].
    rewrite Forall_forall in Hall. symmetry. apply Hall, nth_In, Hi. }
  change (tree_structure (Node KTuple (stacked :: args)))
    with (Node KTuple (tree_structure stacked :: map tree_structure args)).
  rewrite Hbody, tree_unflatten_cons.
  change (tree_structure (Node KTuple args))
    with (Node KTuple (map (@tree_structure array) args)).
  destruct (tree_unflatten (Node KTuple (map tree_structure args)) ai)
    as [e|t] eqn:Et; [reflexivity|].
  rewrite mbind_lift_Ok.
  destruct (tree_unflatten_tuple _ _ Et) as [cs ->]. simpl rbind.
  unfold mbind, outcome, emit, lift, mret. cbn [fst snd].
  destruct (func (nth i objs (Leaf (Scal 0))) cs); reflexivity.
Qed.

End Agreement.

(** Every entry of a flattened axis specification is one of its leaves. *)
Lemma flatten_axes_prefix_In (ax : axis_spec) :
  forall (td : PyTreeDef) (axes : list (option Z)) (a : option Z),
  flatten_axes_prefix ax td = Some axes -> In a axes -> In a (tree_leaves ax).
Proof.
  induction ax as [a0|k axs IH] using rose_ind'; intros td axes a; simpl.
  - intros E Ha. injection E as <-. apply repeat_spec in Ha. left. now symmetry.
  - destruct td as [[]|k' tds]; [discriminate|].
    destruct (node_kind_eq_dec k k'); [|discriminate].
    simpl. clear k k' e. revert tds axes.
    induction IH as [|c r Hc _ IHr]; intros [|t tds] axes; simpl;
      try discriminate.
    + intros E. injection E as <-. intros [].
    + destruct (flatten_axes_prefix c t) as [l1|] eqn:E1; [|discriminate].
      destruct (flatten_axes_children flatten_axes_prefix r tds) as [l2|] eqn:E2;
        [|discriminate].
      intros E. injection E as <-. intros Ha. apply in_app_or in Ha.
      apply in_or_app. destruct Ha as [Ha|Ha].
      * left. apply (Hc _ _ _ E1 Ha).
      * right. apply (IHr _ _ E2 Ha).
Qed.

Lemma zip_axes_fst (axes : list (option Z)) (rs : list (list array))
    (q : option Z * list array) :
  In q (zip_axes axes rs) -> In (fst q) axes.
Proof.
  unfold zip_axes. destruct rs as [|r rs'].
  - intros H. apply in_map_iff in H. destruct H as [a [<- Ha]]. exact Ha.
  - destruct q as [a parts]. intros H. apply in_combine_l in H. exact H.
Qed.

(** Where every output leaf is mapped, [jax.vmap] puts its result together
    as the loop branch does. *)
Lemma reference_assemble_mapped (td : PyTreeDef) (out_axes : axis_spec)
    (rs : list (list array)) (v : pytree) :
  maps_every_leaf out_axes ->
  reference_assemble td out_axes rs = Ok v <->
  assemble (Some td) out_axes rs = Ok v.
Proof.
  intros Hmap. unfold reference_assemble, assemble, flatten_axes.
  destruct (flatten_axes_prefix out_axes td) as [axes|] eqn:E.
  - rewrite !rbind_Ok.
    rewrite (mapM_ext reference_leaf assemble_leaf); [reflexivity|].
    intros q Hq. apply zip_axes_fst in Hq.
    apply (flatten_axes_prefix_In _ _ _ E) in Hq.
    unfold maps_every_leaf in Hmap. rewrite Forall_forall in Hmap.
    specialize (Hmap _ Hq). unfold reference_leaf, assemble_leaf.
    destruct (fst q); [reflexivity | congruence].
  - split; discriminate.
Qed.

(** Where the extra arguments fit ([in_axes] a tree prefix of them, every
    mapped axis non-negative, among the axes of its leaf and as long as the
    stack), every output leaf is mapped, the objects have leaves, and
    [jax.vmap] has its reference semantics, the vmap branch returns a value
    exactly when the loop returns it.  The negative axes that this leaves
    out are where the two branches part. *)
Lemma branches_agree_on_fitting_axes (objs : list pytree) (st : ObjectStack)
    (stacked : pytree) (func : pyfunc) (in_axes : in_axes_arg)
    (out_axes : axis_spec) (args : list pytree)
    (in_axes_flat : list (option Z)) (v : pytree) :
  ObjectStack_init objs = Ok st -> stack st = Some stacked ->
  (0 < num_leaves (hd (Leaf (Scal 0)) objs))%nat ->
  flatten_axes "body_vmap in_axes" (Some (tree_structure (Node KTuple args)))
               (Node KTuple (normalize_in_axes in_axes args)) = Ok in_axes_flat ->
  mapped_axes_fit (length objs) (tree_leaves (Node KTuple args)) in_axes_flat ->
  maps_every_leaf out_axes ->
  outcome (impl vmap_reference st func in_axes out_axes args) = Ok v <->
  outcome (slow_path (objects st) func (normalize_in_axes in_axes args)
                     out_axes args) = Ok v.
Proof.
  intros Hinit Hst Hm Hin Hfit Hmap.
  destruct (stacked_value_leaves _ Hinit Hst) as [Hu [Hobjs [Htd Hls]]].
  rewrite Hobjs. set (in_axes_ := normalize_in_axes in_axes args) in *.
  assert (Hne : objs <> []) by apply Hu.
  assert (HN : (0 < length objs)%nat) by (destruct objs; [congruence | simpl; lia]).
  (* lengths *)
  assert (Hpre : flatten_axes_prefix (Node KTuple in_axes_)
                   (tree_structure (Node KTuple args)) = Some in_axes_flat).
  { unfold flatten_axes in Hin.
    destruct (flatten_axes_prefix _ _); [|discriminate]. now injection Hin as ->. }
  assert (Hlen : length (tree_leaves (Node KTuple args)) = length in_axes_flat).
  { rewrite (flatten_axes_prefix_length _ _ Hpre), length_tree_leaves.
    symmetry. apply num_leaves_structure. }
  (* the vmap branch, evaluated *)
  set (mapped := mapped_stack stacked ++ mapped_args args in_axes_flat).
  set (in_all := tree_structure (Node KTuple (stacked :: args))).
  assert (Href : outcome (impl vmap_reference st func in_axes out_axes args) =
                 (outs <- mapM (reference_call func in_all mapped)
                               (seq 0 (length objs)) ;;
                  match outs with
                  | [] => Err VmapError
                  | o :: _ =>
                      if forallb (fun o' => treedef_eqb (tree_structure o')
                                                        (tree_structure o)) outs
                      then reference_assemble (tree_structure o) out_axes
                                              (map tree_leaves outs)
                      else Err VmapError
                  end)).
  { rewrite (impl_stacked_dispatch vmap_reference _ func in_axes out_axes args Hst).
    rewrite fast_path_outcome. fold in_axes_.
    unfold vmap_reference, tree_flatten. cbn [fst snd].
    assert (Hax : flatten_axes "vmap in_axes"
                    (Some (tree_structure (Node KTuple (stacked :: args))))
                    (Node KTuple (Leaf (Some 0) :: in_axes_)) =
                  Ok (repeat (Some 0) (num_leaves (tree_structure stacked))
                      ++ in_axes_flat)).
    { unfold flatten_axes. simpl. simpl in Hpre.
      destruct (node_kind_eq_dec KTuple KTuple); [|congruence].
      rewrite Hpre. reflexivity. }
    rewrite Hax, rbind_Ok.
    change (tree_leaves (Node KTuple (stacked :: args)))
      with (tree_leaves stacked ++ tree_leaves (Node KTuple args)).
    destruct (@reference_axes objs stacked args in_axes_flat Hls Hlen Hfit)
      as [Hcanon Hmapped].
    rewrite Hcanon, rbind_Ok, Hmapped. fold mapped. fold in_all.
    pose proof (@reference_sizes objs stacked args in_axes_flat Hls Hfit)
      as Hsizes.
    fold mapped in Hsizes.
    destruct (mapped_sizes mapped) as [|size others] eqn:Esz.
    { exfalso. unfold mapped, mapped_stack in Esz. rewrite Hls in Esz.
      destruct (num_leaves (hd (Leaf (Scal 0)) objs)); [lia | discriminate]. }
    inversion Hsizes as [|? ? Hsize Hothers]; subst size.
    replace (forallb (Nat.eqb (length objs)) others) with true; [reflexivity|].
    symmetry. apply forallb_forall. intros k Hk. rewrite Forall_forall in Hothers.
    rewrite <- (Hothers k Hk). apply Nat.eqb_refl. }
  rewrite Href. clear Href.
  assert (Hcall : forall i, (i < length objs)%nat ->
            slow_call func in_axes_flat args i (nth i objs (Leaf (Scal 0))) =
            (ans <- reference_call func in_all mapped i ;; Ok (tree_flatten ans))).
  { intros i Hi.
    apply (@loop_call_is_reference_call func objs stacked args in_axes_flat
             Hu Htd Hls Hlen Hfit i Hi). }
  split.
  - (* the value of the vmap branch is the value of the loop *)
    destruct (mapM _ (seq 0 (length objs))) as [e|outs] eqn:Eouts; [discriminate|].
    simpl rbind. destruct outs as [|o outs']; [discriminate|].
    destruct (forallb _ _) eqn:Eall; [|discriminate].
    intros Hasm. apply (reference_assemble_mapped _ _ _ Hmap) in Hasm.
    pose proof (mapM_Ok_length _ _ Eouts) as Hlo. rewrite length_seq in Hlo.
    assert (Hc : calls_agree (slow_call func in_axes_flat args) 0 objs
                   (map tree_leaves (o :: outs')) (tree_structure o)).
    { apply calls_agree_intro; [now rewrite length_map|].
      intros i Hi. simpl Nat.add. rewrite (Hcall i Hi).
      assert (Hseq : nth_error (seq 0 (length objs)) i = Some i).
      { rewrite nth_error_seq.
        replace (i <? length objs)%nat with true
          by (symmetry; apply Nat.ltb_lt; exact Hi).
        reflexivity. }
      destruct (mapM_Ok_nth _ _ Eouts i Hseq) as [ans [Hans Hri]].
      rewrite Hri. simpl rbind. unfold tree_flatten. f_equal. f_equal.
      + rewrite (nth_indep _ [] (tree_leaves (Leaf (Scal 0))))
          by (rewrite length_map; lia).
        rewrite (map_nth (@tree_leaves array)).
        now rewrite (nth_error_nth _ _ (Leaf (Scal 0)) Hans).
      + rewrite forallb_forall in Eall. apply treedef_eqb_spec, Eall.
        apply (nth_error_In _ _ Hans). }
    rewrite (@slow_path_Ok_intro objs func in_axes_ out_axes args in_axes_flat
               _ _ v Hin Hne Hc Hasm).
    reflexivity.
  - (* and conversely *)
    intros Hv. destruct (slow_path_Ok_inv _ _ _ _ _ Hv)
      as [axes0 [rs [td [Hin0 [_ [Hc Hasm]]]]]].
    rewrite Hin in Hin0. injection Hin0 as <-.
    destruct (calls_agree_rs _ _ _ _ _ Hne Hc) as [Hl [Hrs Hf]].
    set (pick := fun i => match reference_call func in_all mapped i with
                          | inr ans => ans
                          | inl _ => Leaf (Scal 0)
                          end).
    assert (Hpick : forall i, (i < length objs)%nat ->
              reference_call func in_all mapped i = Ok (pick i) /\
              tree_leaves (pick i) = nth i rs [] /\
              tree_structure (pick i) = td).
    { intros i Hi.
      pose proof (@calls_agree_nth _ objs 0 rs td i Hc Hi) as Hi'.
      simpl Nat.add in Hi'. rewrite (Hcall i Hi) in Hi'. unfold pick.
      destruct (reference_call func in_all mapped i) as [e|ans]; [discriminate|].
      simpl in Hi'. injection Hi' as H1 H2. repeat split; assumption. }
    rewrite (mapM_all_Ok _ pick).
    2:{ intros i Hi. apply in_seq in Hi. apply Hpick. lia. }
    simpl rbind.
    assert (Hleaves_outs : map tree_leaves (map pick (seq 0 (length objs))) = rs).
    { rewrite map_map, <- Hl.
      rewrite <- (map_nth_seq [] rs) at 2. apply map_ext_in.
      intros i Hi. apply in_seq in Hi. apply Hpick. lia. }
    destruct (map pick (seq 0 (length objs))) as [|o outs'] eqn:Eouts.
    { destruct objs; [congruence | discriminate]. }
    assert (Ho : tree_structure o = td).
    { destruct (length objs) as [|n] eqn:En; [lia|]. simpl in Eouts.
      injection Eouts as <- _. apply Hpick. lia. }
    replace (forallb _ (o :: outs')) with true.
    + rewrite Ho, Hleaves_outs.
      apply (reference_assemble_mapped _ _ _ Hmap). exact Hasm.
    + symmetry. apply forallb_forall. intros o' Ho'. rewrite <- Eouts in Ho'.
      apply in_map_iff in Ho'. destruct Ho' as [i [<- Hi]]. apply in_seq in Hi.
      rewrite Ho. apply treedef_eqb_spec. apply Hpick. lia.
Qed.

(** The lemma at work: radii 1 and 2, [t = (10, 20)] mapped along axis 0. *)
Example branches_agree_two_bodies :
  exists st,
    ObjectStack_init two_bodies = Ok st /\
    outcome (impl vmap_reference st scale_func (InScalar (Some 0))
                  (Leaf (Some 0)) [Leaf (Arr [Scal 10; Scal 20])])
      = Ok (Leaf (Arr [Scal 10; Scal 40])) /\
    outcome (slow_path (objects st) scale_func [Leaf (Some 0)] (Leaf (Some 0))
                       [Leaf (Arr [Scal 10; Scal 20])])
      = Ok (Leaf (Arr [Scal 10; Scal 40])).
Proof.
  eexists. split; [reflexivity|].
  assert (H : outcome (slow_path two_bodies scale_func [Leaf (Some 0)]
                         (Leaf (Some 0)) [Leaf (Arr [Scal 10; Scal 20])])
              = Ok (Leaf (Arr [Scal 10; Scal 40]))) by reflexivity.
  split; [|exact H].
  apply (@branches_agree_on_fitting_axes two_bodies _
           (Node (KClass "Body") [Leaf (Arr [Scal 1; Scal 2])])
           scale_func (InScalar (Some 0)) (Leaf (Some 0))
           [Leaf (Arr [Scal 10; Scal 20])] [Some 0]).
  - reflexivity.
  - reflexivity.
  - simpl. lia.
  - reflexivity.
  - repeat constructor; simpl; lia.
  - repeat constructor. discriminate.
  - exact H.
Qed.

(** ** The two branches on a negative axis *)

(** C1 at a negative [in_axes]: for two objects of one structure, the
    function that returns its extra argument, [in_axes = -1],
    [out_axes = 0] and a 2x2 array as extra argument, the vmap branch
    (reference semantics of [jax.vmap]: axis -1 is the last axis) returns
    the columns of the array, while the loop over the same objects returns
    its rows. *)
Theorem branches_differ_on_negative_in_axes :
  let stacked := Node (KClass "Body") [Leaf (Arr [Scal 1; Scal 2])] in
  let self := mkObjectStack two_bodies (Some stacked) in
  ObjectStack_init two_bodies = Ok self /\
  impl vmap_reference self second_arg_func (InScalar (Some (-1)))
       (Leaf (Some 0)) [Leaf matrix22]
    = ([EvVmap],
       Ok (Leaf (Arr [Arr [Scal 1; Scal 3]; Arr [Scal 2; Scal 4]]))) /\
  slow_path (objects self) second_arg_func
            (normalize_in_axes (InScalar (Some (-1))) [Leaf matrix22])
            (Leaf (Some 0)) [Leaf matrix22]
    = ([EvCall 0; EvCall 1],
       Ok (Leaf (Arr [Arr [Scal 1; Scal 2]; Arr [Scal 3; Scal 4]]))).
Proof. repeat split. Qed.

(** ** [index_helper] within range *)

Lemma mapM_Forall {A B} (f : A -> res B) (P : B -> Prop) (l : list A) :
  (forall x, In x l -> exists y, f x = Ok y /\ P y) ->
  exists ys, mapM f l = Ok ys /\ Forall P ys /\ length ys = length l.
Proof.
  induction l as [|x r IH]; intros H; simpl.
  - exists []. repeat split. constructor.
  - destruct (H x (or_introl eq_refl)) as [y [-> Hy]].
    destruct IH as [ys [-> [Hys Hlen]]];
      [intros z Hz; apply H; right; exact Hz|].
    exists (y :: ys). simpl. repeat split; [constructor; assumption | now rewrite Hlen].
Qed.

Lemma rect_intro (ys : list array) (s : list nat) :
  Forall (fun y => rect y = true /\ shape y = s) ys -> rect (Arr ys) = true.
Proof.
  intros H. simpl. apply andb_true_iff. split.
  - induction H as [|y r [Hy _] _ IH]; simpl; [reflexivity|].
    now rewrite Hy, IH.
  - apply forallb_forall. intros y Hy. apply shape_eqb_spec.
    rewrite Forall_forall in H.
    destruct ys as [|y0 r]; [contradiction|]. simpl hd.
    rewrite (proj2 (H y Hy)), (proj2 (H y0 (or_introl eq_refl))). reflexivity.
Qed.

(** On a rectangular array, selecting an index that exists along an axis
    that exists returns an array, rectangular again, whose shape is the
    shape of the argument with that axis taken out. *)
Lemma select_at_axis_in_range (a : nat) :
  forall (n : nat) (arg : array) (m : nat),
  rect arg = true -> nth_error (shape arg) a = Some m -> (n < m)%nat ->
  exists r, select_at_axis a n arg = Ok r /\
            rect r = true /\ shape r = drop_axis a (shape arg).
Proof.
  induction a as [|a IH]; intros n arg m Hr Hs Hn.
  - destruct arg as [z|xs]; [discriminate|]. simpl in Hs. injection Hs as <-.
    destruct (nth_error xs n) as [x|] eqn:Ex;
      [|apply nth_error_None in Ex; lia].
    exists x. simpl. unfold item. rewrite Ex. split; [reflexivity|].
    pose proof (rect_children _ Hr) as Hch. rewrite Forall_forall in Hch.
    destruct (Hch x (nth_error_In _ _ Ex)) as [Hrx Hsx].
    split; [exact Hrx|]. rewrite Hsx.
    destruct xs as [|x0 rest]; [destruct n; discriminate|]. reflexivity.
  - destruct arg as [z|xs]; [discriminate|].
    destruct xs as [|x0 rest]; [destruct a; discriminate|].
    simpl in Hs.
    pose proof (rect_children _ Hr) as Hch. simpl hd in Hch.
    destruct (@mapM_Forall _ _ (select_at_axis a n)
                (fun y => rect y = true /\ shape y = drop_axis a (shape x0))
                (x0 :: rest)) as [ys [Hys [Hall Hlen]]].
    { intros x Hx. rewrite Forall_forall in Hch. destruct (Hch x Hx) as [Hrx Hsx].
      rewrite <- Hsx in Hs. destruct (IH n x m Hrx Hs Hn) as [r [Er [Hrr Hsr]]].
      exists r. rewrite Hsx in Hsr. repeat split; assumption. }
    exists (Arr ys).
    change (select_at_axis (S a) n (Arr (x0 :: rest)))
      with (ys <- mapM (select_at_axis a n) (x0 :: rest) ;; Ok (Arr ys)).
    rewrite Hys. split; [reflexivity|]. split; [apply (rect_intro Hall)|].
    destruct ys as [|y0 ys']; [discriminate|].
    inversion Hall as [|? ? [_ Hy0] _]; subst.
    simpl shape. rewrite Hy0. simpl in Hlen. unfold drop_axis. simpl.
    f_equal. lia.
Qed.

(** C10.  Let index [n] exist along the axis that is indexed.  With a
    non-negative integer [a], [index_helper(n, arg, a)] on a rectangular
    argument is the selection of index [n] at axis [a] with the [a] earlier
    axes kept whole, an array with the shape of the argument less axis [a].
    With a negative integer [a] the index tuple is just [(n,)], so that
    index [n] is selected along axis 0; on a 2x2 array this is not the
    selection along the last axis, which [a = -1] would name when axes are
    counted from the end. *)
Theorem index_helper_selects :
  (forall (n a m : nat) (arg : array),
      rect arg = true -> nth_error (shape arg) a = Some m -> (n < m)%nat ->
      index_helper n arg (Some (Z.of_nat a)) = select_at_axis a n arg /\
      exists r, index_helper n arg (Some (Z.of_nat a)) = Ok r /\
                shape r = drop_axis a (shape arg)) /\
  (forall (n : nat) (p : positive),
      tuple_repeat [SliceAll] (Z.neg p) ++ [IntIdx n] = [IntIdx n]) /\
  (forall (n m : nat) (p : positive) (arg : array),
      nth_error (shape arg) 0 = Some m -> (n < m)%nat ->
      index_helper n arg (Some (Z.neg p)) = select_at_axis 0 n arg) /\
  (index_helper 0 matrix22 (Some (-1)) = Ok (Arr [Scal 1; Scal 2]) /\
   select_at_axis (ndim matrix22 - 1) 0 matrix22 = Ok (Arr [Scal 1; Scal 3])).
Proof.
  split; [|split; [|split]].
  - intros n a m arg Hr Hs Hn.
    destruct (@select_at_axis_in_range a n arg m Hr Hs Hn) as [r [Er [_ Hsr]]].
    assert (E : index_helper n arg (Some (Z.of_nat a)) = Ok r).
    { unfold index_helper. rewrite tuple_repeat_nat.
      apply getitem_slices, Er. }
    split; [now rewrite E, Er|]. exists r. split; assumption.
  - reflexivity.
  - intros n m p arg Hs Hn. unfold index_helper. rewrite tuple_repeat_neg.
    destruct arg as [x|xs]; [reflexivity|].
    simpl in Hs. injection Hs as <-.
    destruct (nth_error xs n) as [x|] eqn:Ex;
      [|apply nth_error_None in Ex; lia].
    simpl. unfold item. rewrite (clamp_in_range _ _ Ex), Ex. reflexivity.
  - split; reflexivity.
Qed.

Lemma index_helper_selects_witness :
  (index_helper 1 matrix22 (Some (Z.of_nat 1)) = select_at_axis 1 1 matrix22 /\
   exists r, index_helper 1 matrix22 (Some (Z.of_nat 1)) = Ok r /\
             shape r = drop_axis 1 (shape matrix22)) /\
  index_helper 1 matrix22 (Some (-2)) = select_at_axis 0 1 matrix22.
Proof.
  split.
  - apply (proj1 index_helper_selects 1%nat 1%nat 2%nat matrix22);
      [reflexivity | reflexivity | lia].
  - apply (proj1 (proj2 (proj2 index_helper_selects))
             1%nat 2%nat 2%positive matrix22); [reflexivity | lia].
Defined.

(** ** The stacked value of reordered objects *)




(** ** Reordered objects: construction and loop together *)



(* ********************************************************************* *)
(** * Further properties of the code *)
(* ********************************************************************* *)

(** ** Which evaluations a call makes *)

Lemma trace_mbind {A B} (m : M A) (k : A -> M B) :
  trace (mbind m k) =
  trace m ++ match outcome m with
             | inl _ => []
             | inr a => trace (k a)
             end.
Proof.
  unfold trace, outcome, mbind. destruct (snd m); simpl;
    [now rewrite app_nil_r | reflexivity].
Qed.

Section LoopTrace.
Variable func : pyfunc.
Variable in_tree : PyTreeDef.
Variable in_axes_flat : list (option Z).
Variable args_flat : list array.

(** A call that raises has evaluated the function once, or not at all
    (when selecting or rebuilding the arguments raised). *)
Lemma object_call_trace_Err (n : nat) (body : pytree) (e : error) :
  object_result func in_tree in_axes_flat args_flat n body = Err e ->
  let m := flatten_func_for_object_vmap func in_tree in_axes_flat n body
             args_flat in
  outcome m = Err e /\ (trace m = [] \/ trace m = [EvCall n]).
Proof.
  intros H m. split; [exact H|]. subst m.
  unfold flatten_func_for_object_vmap.
  destruct (mapM _ _) as [e'|ai]; [left; reflexivity|].
  rewrite mbind_lift_Ok.
  destruct (tree_unflatten in_tree ai) as [e'|t]; [left; reflexivity|].
  rewrite mbind_lift_Ok.
  destruct t as [x|[] cs]; try (left; reflexivity).
  right. unfold mbind, trace. simpl.
  destruct (func body cs); reflexivity.
Qed.

(** The loop evaluates the objects it is given in order, from the first
    on, without gap or repetition, and all of them when it returns. *)
Lemma object_loop_trace (bodies : list pytree) :
  forall n results out_tree,
  exists k, (k <= length bodies)%nat /\
    trace (object_loop func in_tree in_axes_flat args_flat n bodies results
                       out_tree) = map EvCall (seq n k) /\
    (forall r, outcome (object_loop func in_tree in_axes_flat args_flat n
                          bodies results out_tree) = Ok r ->
               k = length bodies).
Proof.
  induction bodies as [|b rest IH]; intros n results out_tree.
  - exists 0%nat. repeat split. lia.
  - destruct (object_result func in_tree in_axes_flat args_flat n b)
      as [e|[r td]] eqn:Hb.
    + destruct (object_call_trace_Err _ _ Hb) as [Ho Ht].
      assert (Hloop : object_loop func in_tree in_axes_flat args_flat n
                        (b :: rest) results out_tree =
                      (trace (flatten_func_for_object_vmap func in_tree
                                in_axes_flat n b args_flat), Err e)).
      { simpl object_loop. unfold mbind. unfold outcome in Ho. rewrite Ho.
        reflexivity. }
      rewrite Hloop. unfold trace at 1, outcome. cbn [fst snd].
      destruct Ht as [-> | ->].
      * exists 0%nat. simpl. repeat split; [lia | discriminate].
      * exists 1%nat. simpl. repeat split; [lia | discriminate].
    + rewrite (@loop_step func in_tree in_axes_flat args_flat n b rest results
                 out_tree r td Hb).
      destruct (IH (S n) (results ++ [r]) (Some td)) as [k [Hk [Ht Hr]]].
      assert (Hcont : exists k', (k' <= length (b :: rest))%nat /\
                trace (EvCall n :: fst (object_loop func in_tree in_axes_flat
                         args_flat (S n) rest (results ++ [r]) (Some td)),
                       snd (object_loop func in_tree in_axes_flat args_flat
                         (S n) rest (results ++ [r]) (Some td)))
                  = map EvCall (seq n k') /\
                (forall r', outcome (EvCall n :: fst (object_loop func in_tree
                         in_axes_flat args_flat (S n) rest (results ++ [r])
                         (Some td)),
                       snd (object_loop func in_tree in_axes_flat args_flat
                         (S n) rest (results ++ [r]) (Some td))) = Ok r' ->
                  k' = length (b :: rest))).
      { exists (S k). simpl. split; [lia|]. split.
        - unfold trace in *. cbn [fst]. now rewrite Ht.
        - intros r' Hr'. f_equal. apply (Hr r'). exact Hr'. }
      destruct out_tree as [expected|]; [|exact Hcont].
      destruct (treedef_neqb td expected); [|exact Hcont].
      exists 1%nat. simpl. repeat split; [lia | discriminate].
Qed.

End LoopTrace.

Lemma slow_path_trace (objs : list pytree) (func : pyfunc)
    (in_axes_ : list axis_spec) (out_axes : axis_spec) (args : list pytree) :
  exists k, (k <= length objs)%nat /\
    trace (slow_path objs func in_axes_ out_axes args) = map EvCall (seq 0 k) /\
    (forall v, outcome (slow_path objs func in_axes_ out_axes args) = Ok v ->
               k = length objs).
Proof.
  destruct (flatten_axes "body_vmap in_axes"
              (Some (tree_structure (Node KTuple args))) (Node KTuple in_axes_))
    as [e|in_axes_flat] eqn:Ein.
  - exists 0%nat. unfold slow_path, tree_flatten. cbn [fst snd]. rewrite Ein.
    repeat split; [lia | discriminate].
  - rewrite (slow_path_loop _ _ _ _ _ Ein).
    destruct (object_loop_trace func (tree_structure (Node KTuple args))
                in_axes_flat (tree_leaves (Node KTuple args)) objs 0 [] None)
      as [k [Hk [Ht Hr]]].
    exists k. split; [exact Hk|]. split.
    + rewrite trace_mbind, Ht.
      destruct (outcome _); [apply app_nil_r | apply app_nil_r].
    + intros v Hv. rewrite outcome_mbind in Hv.
      destruct (outcome (object_loop _ _ _ _ _ _ _ _)) as [e|r] eqn:Eo;
        [discriminate|].
      apply (Hr r). reflexivity.
Qed.

(** X1.  What a call of the built callable evaluates.  With a stacked
    value: one [jax.vmap] evaluation and nothing else.  Without: the mapped
    function for objects 0, 1, ..., [k-1] in this order, each once, for
    some [k] that is at most [len(self)], and that is [len(self)] whenever
    the call returns a value. *)
Theorem impl_trace_shape jax_vmap (self : ObjectStack) (func : pyfunc)
    (in_axes : in_axes_arg) (out_axes : axis_spec) (args : list pytree) :
  match stack self with
  | Some _ => trace (impl jax_vmap self func in_axes out_axes args) = [EvVmap]
  | None =>
      exists k, (k <= ObjectStack_len self)%nat /\
        trace (impl jax_vmap self func in_axes out_axes args)
          = map EvCall (seq 0 k) /\
        (forall v, outcome (impl jax_vmap self func in_axes out_axes args)
                     = Ok v ->
                   k = ObjectStack_len self)
  end.
Proof.
  unfold impl, ObjectStack_len. destruct (stack self) as [stacked|].
  - reflexivity.
  - apply slow_path_trace.
Qed.

(** X2.  For a stack that construction returned, a call evaluates
    [jax.vmap] exactly when the objects all have one structure, there is at
    least one, and they are not [None]; [jax.vmap] is then all that is
    evaluated, and otherwise it is not evaluated at all. *)
Theorem vmap_evaluated_iff_uniform jax_vmap (objs : list pytree)
    (st : ObjectStack) (func : pyfunc) (in_axes : in_axes_arg)
    (out_axes : axis_spec) (args : list pytree) :
  ObjectStack_init objs = Ok st ->
  (In EvVmap (trace (impl jax_vmap st func in_axes out_axes args)) <->
   uniform_structure objs /\ is_none (hd (Leaf (Scal 0)) objs) = false) /\
  (uniform_structure objs -> is_none (hd (Leaf (Scal 0)) objs) = false ->
   trace (impl jax_vmap st func in_axes out_axes args) = [EvVmap]).
Proof.
  intros Hinit.
  destruct (ObjectStack_init_stacked_value objs Hinit) as [_ [Hiff _]].
  unfold impl. destruct (stack st) as [stacked|] eqn:Est.
  - assert (Hu : uniform_structure objs /\
                 is_none (hd (Leaf (Scal 0)) objs) = false)
      by (apply Hiff; discriminate).
    split; [|reflexivity].
    split; [intros _; exact Hu | intros _; left; reflexivity].
  - assert (Hnu : ~ (uniform_structure objs /\
                     is_none (hd (Leaf (Scal 0)) objs) = false)).
    { intros H. apply Hiff in H. congruence. }
    split; [|intros H1 H2; exfalso; apply Hnu; split; assumption].
    split; [|intros H; contradiction].
    intros Hin.
    destruct (slow_path_trace (objects st) func (normalize_in_axes in_axes args)
                out_axes args) as [k [_ [Ht _]]].
    rewrite Ht in Hin. apply in_map_iff in Hin.
    destruct Hin as [i [Hi _]]. discriminate.
Qed.

Lemma vmap_evaluated_iff_uniform_witness :
  let st := mkObjectStack two_bodies
              (Some (Node (KClass "Body") [Leaf (Arr [Scal 1; Scal 2])])) in
  ObjectStack_init two_bodies = Ok st /\
  (In EvVmap (trace (impl vmap_reference st scale_func (InScalar None)
                          (Leaf (Some 0)) [Leaf (Scal 3)])) <->
   uniform_structure two_bodies /\
   is_none (hd (Leaf (Scal 0)) two_bodies) = false) /\
  (uniform_structure two_bodies ->
   is_none (hd (Leaf (Scal 0)) two_bodies) = false ->
   trace (impl vmap_reference st scale_func (InScalar None)
               (Leaf (Some 0)) [Leaf (Scal 3)]) = [EvVmap]).
Proof.
  split; [reflexivity|].
  apply (@vmap_evaluated_iff_uniform vmap_reference two_bodies).
  reflexivity.
Defined.

(** ** Construction and the stacked value *)

Lemma mapM_Err_inv {A B} (f : A -> res B) (l : list A) (e : error) :
  mapM f l = Err e -> exists x, In x l /\ f x = Err e.
Proof.
  induction l as [|x r IH]; simpl; [discriminate|].
  destruct (f x) as [e'|y] eqn:Ex.
  - intros H. injection H as <-. exists x. split; [left; reflexivity | exact Ex].
  - simpl. destruct (mapM f r) as [e'|ys]; [|discriminate].
    simpl. intros H. injection H as <-.
    destruct (IH eq_refl) as [z [Hz Ez]]. exists z. split; [right|]; assumption.
Qed.

Lemma jnp_stack_Err (xs : list array) (axis : Z) (e : error) :
  jnp_stack xs axis = Err e -> e = StackError.
Proof.
  unfold jnp_stack. destruct xs as [|x0 r]; [intros H; now injection H|].
  destruct (_ && _); [|intros H; now injection H].
  destruct (forallb _ _); [discriminate | intros H; now injection H].
Qed.

Lemma jnp_stack_axis0_iff (xs : list array) :
  (exists y, jnp_stack xs 0 = Ok y) <-> xs <> [] /\ stackable xs.
Proof.
  split.
  - intros [y Hy]. apply jnp_stack_Ok in Hy.
    destruct Hy as [x0 [rest [-> [Hall _]]]]. split; [discriminate | exact Hall].
  - intros [Hne Hall]. destruct xs as [|x0 rest]; [congruence|].
    eexists. apply (@jnp_stack_same_shape _ 0 x0 rest eq_refl Hall). lia.
Qed.

Lemma leaves_at_nonempty (j : nat) (objs : list pytree) :
  objs <> [] -> leaves_at j objs <> [].
Proof. destruct objs; [congruence | discriminate]. Qed.

Lemma uniform_columns (objs : list pytree) :
  uniform_structure objs ->
  zip_star (map tree_leaves objs) =
  map (fun j => leaves_at j objs) (seq 0 (num_leaves (hd (Leaf (Scal 0)) objs))).
Proof.
  intros Hu. destruct (uniform_leaves Hu) as [Hne Hlen].
  rewrite (zip_star_columns (Scal 0) Hne Hlen). apply map_ext.
  intros j. unfold leaves_at. now rewrite map_map.
Qed.

(** X3.  Unstacking gives the objects back: for a stack with a stacked
    value, selecting index [i] along axis 0 in every leaf of the stacked
    value, as [index_helper] selects, and rebuilding with the structure of
    the stacked value returns object number [i]. *)
Theorem stacked_value_unstacks (objs : list pytree) (st : ObjectStack)
    (stacked : pytree) (i : nat) :
  ObjectStack_init objs = Ok st -> stack st = Some stacked ->
  (i < length objs)%nat ->
  exists sel,
    mapM (fun leaf => index_helper i leaf (Some 0)) (tree_leaves stacked)
      = Ok sel /\
    tree_unflatten (tree_structure stacked) sel
      = Ok (nth i objs (Leaf (Scal 0))).
Proof.
  intros Hinit Hst Hi.
  destruct (stacked_value_leaves _ Hinit Hst) as [Hu [_ [Htd Hls]]].
  exists (tree_leaves (nth i objs (Leaf (Scal 0)))). split.
  - rewrite Hls, mapM_map.
    rewrite (mapM_all_Ok _
               (fun j => nth j (tree_leaves (nth i objs (Leaf (Scal 0)))) (Scal 0))).
    + rewrite <- (@object_leaves_length objs Hu i Hi), map_nth_seq. reflexivity.
    + intros j _. unfold index_helper.
      change (tuple_repeat [SliceAll] 0) with (repeat SliceAll 0).
      apply (getitem_slices 0 i). simpl. unfold item, leaves_at.
      rewrite nth_error_map, (nth_error_nth_lt objs (Leaf (Scal 0)) Hi).
      reflexivity.
  - rewrite Htd. destruct Hu as [_ Hall]. rewrite Forall_forall in Hall.
    rewrite <- (Hall _ (nth_In objs (Leaf (Scal 0)) Hi)).
    apply tree_unflatten_flatten.
Qed.

Lemma stacked_value_unstacks_witness :
  exists sel,
    mapM (fun leaf => index_helper 1 leaf (Some 0))
         (tree_leaves (Node (KClass "Body") [Leaf (Arr [Scal 1; Scal 2])]))
      = Ok sel /\
    tree_unflatten
      (tree_structure (Node (KClass "Body") [Leaf (Arr [Scal 1; Scal 2])])) sel
      = Ok (nth 1 two_bodies (Leaf (Scal 0))).
Proof.
  apply (@stacked_value_unstacks two_bodies
           (mkObjectStack two_bodies
              (Some (Node (KClass "Body") [Leaf (Arr [Scal 1; Scal 2])])))
           (Node (KClass "Body") [Leaf (Arr [Scal 1; Scal 2])]) 1%nat).
  - reflexivity.
  - reflexivity.
  - simpl. lia.
Defined.

(** X4.  When construction raises.  Construction returns a stack unless
    the objects all have one structure and, at some leaf position, their
    leaves do not all have one shape; the error is then the one of
    [jnp.stack].  Objects of different structures, and no objects at all,
    never make construction raise. *)
Theorem ObjectStack_init_succeeds_iff (objs : list pytree) :
  ((exists st, ObjectStack_init objs = Ok st) <->
   (uniform_structure objs ->
    forall j, (j < num_leaves (hd (Leaf (Scal 0)) objs))%nat ->
              stackable (leaves_at j objs))) /\
  (forall e, ObjectStack_init objs = Err e -> e = StackError).
Proof.
  destruct (ObjectStack_init_cases objs) as [[Hu E]|[Hu E]]; rewrite E.
  - rewrite (uniform_columns Hu), mapM_map.
    set (m := num_leaves (hd (Leaf (Scal 0)) objs)).
    assert (Hne : objs <> []) by apply Hu.
    split; [split|].
    + intros [st Hst] _ j Hj.
      destruct (mapM _ (seq 0 m)) as [e|ys] eqn:Eys; [discriminate|].
      assert (Hseq : nth_error (seq 0 m) j = Some j).
      { rewrite nth_error_seq.
        replace (j <? m)%nat with true by (symmetry; apply Nat.ltb_lt; exact Hj).
        reflexivity. }
      destruct (mapM_Ok_nth _ _ Eys j Hseq) as [y [_ Hy]].
      apply (proj1 (jnp_stack_axis0_iff (leaves_at j objs))). exists y. exact Hy.
    + intros Hall. specialize (Hall Hu).
      rewrite (mapM_all_Ok _ (fun j => Arr (leaves_at j objs))).
      * rewrite rbind_Ok.
        destruct (@tree_unflatten_total array
                    (tree_structure (hd (Leaf (Scal 0)) objs))
                    (map (fun j => Arr (leaves_at j objs)) (seq 0 m)))
          as [s Hs].
        { now rewrite length_map, length_seq, num_leaves_structure. }
        rewrite Hs, rbind_Ok. eexists. reflexivity.
      * intros j Hj. apply in_seq in Hj.
        destruct (proj2 (jnp_stack_axis0_iff (leaves_at j objs)))
          as [y Hy].
        { split; [apply leaves_at_nonempty, Hne | apply Hall; lia]. }
        rewrite Hy. f_equal. apply (jnp_stack_axis0 _ Hy).
    + intros e He.
      destruct (mapM _ (seq 0 m)) as [e'|ys] eqn:Eys.
      * injection He as <-. apply mapM_Err_inv in Eys.
        destruct Eys as [j [_ Hj]]. apply (jnp_stack_Err _ _ Hj).
      * rewrite rbind_Ok in He.
        destruct (@tree_unflatten_total array
                    (tree_structure (hd (Leaf (Scal 0)) objs)) ys) as [s Hs].
        { rewrite (mapM_Ok_length _ _ Eys), length_seq.
          symmetry. apply num_leaves_structure. }
        rewrite Hs in He. discriminate.
  - split; [split|].
    + intros _ H. contradiction.
    + intros _. eexists. reflexivity.
    + discriminate.
Qed.

(** ** Errors of a call of one object *)

Section LoopError.
Variable func : pyfunc.
Variable in_tree : PyTreeDef.
Variable in_axes_flat : list (option Z).
Variable args_flat : list array.

(** When the calls for the first objects agree and the next call raises,
    the loop stops there with that error. *)
Lemma object_loop_error (pre : list pytree) :
  forall n results out_tree rs td b post e,
  calls_agree (object_result func in_tree in_axes_flat args_flat) n pre rs td ->
  out_tree = None \/ out_tree = Some td ->
  object_result func in_tree in_axes_flat args_flat (n + length pre) b = Err e ->
  exists t, (t = [] \/ t = [EvCall (n + length pre)]) /\
    object_loop func in_tree in_axes_flat args_flat n (pre ++ b :: post)
                results out_tree =
      (map EvCall (seq n (length pre)) ++ t, Err e).
Proof.
  induction pre as [|b0 pre' IH]; intros n results out_tree rs td b post e Hc Hot He.
  - simpl in He. rewrite Nat.add_0_r in He.
    destruct (object_call_trace_Err _ _ _ _ _ _ He) as [Ho Ht].
    exists (trace (flatten_func_for_object_vmap func in_tree in_axes_flat n b
                     args_flat)).
    rewrite Nat.add_0_r. split; [exact Ht|].
    simpl. unfold mbind. unfold outcome in Ho. rewrite Ho. reflexivity.
  - destruct rs as [|r rs']; simpl in Hc; [contradiction|].
    destruct Hc as [Hb Hrest].
    destruct (IH (S n) (results ++ [r]) (Some td) rs' td b post e Hrest
                (or_intror eq_refl)) as [t [Ht Hloop]].
    { rewrite <- He. f_equal. simpl. lia. }
    exists t. split.
    { replace (n + length (b0 :: pre'))%nat with (S n + length pre')%nat
        by (simpl; lia). exact Ht. }
    change ((b0 :: pre') ++ b :: post) with (b0 :: (pre' ++ b :: post)).
    rewrite (@loop_step func in_tree in_axes_flat args_flat n b0 _ results
               out_tree r td Hb).
    rewrite Hloop. cbn [fst snd].
    destruct Hot as [-> | ->]; [reflexivity|].
    unfold treedef_neqb. rewrite treedef_eqb_refl. reflexivity.
Qed.

End LoopError.

(** X5.  Errors pass through.  In the loop branch, when the calls for the
    first objects return with one descriptor and the call for the next
    object raises, inside the mapped function or while its arguments are
    selected, the call of the built callable raises that same error, and
    no later object is evaluated. *)
Theorem slow_path_propagates_error (objs : list pytree) (func : pyfunc)
    (in_axes_ : list axis_spec) (out_axes : axis_spec) (args : list pytree)
    (in_axes_flat : list (option Z)) (pre post : list pytree) (b : pytree)
    (rs : list (list array)) (td : PyTreeDef) (e : error) :
  flatten_axes "body_vmap in_axes" (Some (tree_structure (Node KTuple args)))
               (Node KTuple in_axes_) = Ok in_axes_flat ->
  objs = pre ++ b :: post ->
  calls_agree (slow_call func in_axes_flat args) 0 pre rs td ->
  slow_call func in_axes_flat args (length pre) b = Err e ->
  outcome (slow_path objs func in_axes_ out_axes args) = Err e /\
  forall n, In (EvCall n) (trace (slow_path objs func in_axes_ out_axes args)) ->
            (n <= length pre)%nat.
Proof.
  intros Hin -> Hc He. rewrite (slow_path_loop _ _ _ _ _ Hin).
  destruct (@object_loop_error func (tree_structure (Node KTuple args))
              in_axes_flat (tree_leaves (Node KTuple args)) pre 0 [] None rs td
              b post e Hc (or_introl eq_refl) He) as [t [Ht Hloop]].
  rewrite Hloop. unfold mbind, outcome, trace. cbn [fst snd]. split; [reflexivity|].
  intros n Hn. apply in_app_or in Hn. destruct Hn as [Hn|Hn].
  - apply in_map_iff in Hn. destruct Hn as [i [Hi Hseq]].
    injection Hi as <-. apply in_seq in Hseq. lia.
  - destruct Ht as [-> | ->]; [contradiction|].
    destruct Hn as [Hn|[]]. injection Hn as <-. simpl. lia.
Qed.

Lemma slow_path_propagates_error_witness :
  outcome (slow_path [Leaf (Scal 1); Leaf (Scal 2); Leaf (Scal 3)] picky_func
                     [] (Leaf (Some 0)) []) = Err (UserError 3) /\
  forall n, In (EvCall n)
              (trace (slow_path [Leaf (Scal 1); Leaf (Scal 2); Leaf (Scal 3)]
                                picky_func [] (Leaf (Some 0)) [])) ->
            (n <= 1)%nat.
Proof.
  apply (@slow_path_propagates_error
           [Leaf (Scal 1); Leaf (Scal 2); Leaf (Scal 3)] picky_func
           [] (Leaf (Some 0)) [] [] [Leaf (Scal 1)] [Leaf (Scal 3)]
           (Leaf (Scal 2)) [[Scal 1]] (Leaf tt) (UserError 3)).
  - reflexivity.
  - reflexivity.
  - simpl. split; [reflexivity | exact I].
  - reflexivity.
Defined.

(** ** Broadcast arguments and the plain map *)

Lemma scalar_axes_children (a : option Z) (args : list pytree) :
  flatten_axes_children flatten_axes_prefix (map (fun _ => Leaf a) args)
                        (map tree_structure args) =
  Some (repeat a (length (flat_map tree_leaves args))).
Proof.
  induction args as [|x r IH]; simpl; [reflexivity|].
  rewrite IH, length_app, repeat_app, length_tree_leaves, num_leaves_structure.
  reflexivity.
Qed.

(** A scalar [in_axes] is never refused: every leaf of every extra
    argument gets that entry. *)
Lemma scalar_in_axes_flat (name : string) (a : option Z) (args : list pytree) :
  flatten_axes name (Some (tree_structure (Node KTuple args)))
               (Node KTuple (normalize_in_axes (InScalar a) args)) =
  Ok (repeat a (length (tree_leaves (Node KTuple args)))).
Proof.
  unfold flatten_axes. simpl.
  destruct (node_kind_eq_dec KTuple KTuple); [|congruence].
  rewrite scalar_axes_children. reflexivity.
Qed.

Lemma mapM_index_helper_None (n : nat) (args_flat : list array) :
  mapM (fun p => index_helper n (fst p) (snd p))
       (combine args_flat (repeat None (length args_flat))) = Ok args_flat.
Proof.
  rewrite combine_repeat, mapM_map.
  rewrite (mapM_all_Ok _ (fun x => x)); [now rewrite map_id | reflexivity].
Qed.

(** With every entry the sentinel, the call for an object is the mapped
    function applied to the object and the arguments as given. *)
Lemma broadcast_call (func : pyfunc) (args : list pytree) (n : nat)
    (body : pytree) :
  flatten_func_for_object_vmap func (tree_structure (Node KTuple args))
    (repeat None (length (tree_leaves (Node KTuple args)))) n body
    (tree_leaves (Node KTuple args)) =
  ([EvCall n], ans <- func body args ;; Ok (tree_flatten ans)).
Proof.
  unfold flatten_func_for_object_vmap.
  rewrite mapM_index_helper_None, mbind_lift_Ok.
  rewrite tree_unflatten_flatten, mbind_lift_Ok.
  unfold mbind, emit, lift, mret. cbn [fst snd].
  destruct (func body args); reflexivity.
Qed.

(** X6.  Broadcast arguments reach the function untouched.  With
    [in_axes=None] the loop branch never refuses the axis specification,
    and the call for object number [n] is one evaluation of the mapped
    function on that object and the extra arguments exactly as the caller
    gave them, whatever [n] is; its result is flattened, its error passed
    on. *)
Theorem broadcast_arguments_reach_function (func : pyfunc)
    (args : list pytree) (n : nat) (body : pytree) :
  flatten_axes "body_vmap in_axes" (Some (tree_structure (Node KTuple args)))
               (Node KTuple (normalize_in_axes (InScalar None) args)) =
    Ok (repeat None (length (tree_leaves (Node KTuple args)))) /\
  flatten_func_for_object_vmap func (tree_structure (Node KTuple args))
    (repeat None (length (tree_leaves (Node KTuple args)))) n body
    (tree_leaves (Node KTuple args)) =
  ([EvCall n], ans <- func body args ;; Ok (tree_flatten ans)).
Proof.
  split; [apply scalar_in_axes_flat | apply broadcast_call].
Qed.





(** ** Selecting from a stacked output *)

(** Selecting index [n] at the axis along which arrays were joined gives
    operand number [n] back. *)
Lemma select_stack_at (c : nat) :
  forall (xs : list array) (s : list nat) (n : nat),
  Forall (fun x => rect x = true) xs ->
  Forall (fun x => shape x = s) xs ->
  (c <= length s)%nat -> (n < length xs)%nat ->
  select_at_axis c n (stack_at c xs) = Ok (nth n xs (Scal 0)).
Proof.
  induction c as [|c IH]; intros xs s n Hr Hs Hc Hn.
  - simpl. unfold item. now rewrite (nth_error_nth_lt xs (Scal 0) Hn).
  - destruct s as [|m s']; simpl in Hc; [lia|].
    destruct xs as [|x0 rest]; [simpl in Hn; lia|].
    set (xs := x0 :: rest) in *.
    assert (Hlen : forall x, In x xs -> exists ys, x = Arr ys /\ length ys = m).
    { intros x Hx. rewrite Forall_forall in Hs. specialize (Hs x Hx).
      destruct x as [z|ys]; [discriminate|]. exists ys. split; [reflexivity|].
      simpl in Hs. congruence. }
    destruct (Hlen x0 (or_introl eq_refl)) as [ys0 [Hx0 Hl0]].
    destruct (Hlen (nth n xs (Scal 0)) (nth_In xs (Scal 0) Hn)) as [ysn [Hxn Hln]].
    change (stack_at (S c) xs)
      with (Arr (map (stack_at c) (columns (map children xs)))).
    rewrite (@columns_spec xs x0 rest eq_refl).
    replace (length (children x0)) with m by (rewrite Hx0; symmetry; exact Hl0).
    change (select_at_axis (S c) n (Arr ?l))
      with (ys <- mapM (select_at_axis c n) l ;; Ok (Arr ys)).
    rewrite !mapM_map.
    rewrite (mapM_all_Ok _ (fun j => nth j (children (nth n xs (Scal 0))) (Scal 0))).
    + rewrite rbind_Ok, Hxn. simpl children.
      rewrite <- Hln, map_nth_seq. reflexivity.
    + intros j Hj. apply in_seq in Hj.
      pose proof (@column_entries xs m s' j Hr Hs ltac:(lia)) as Hent.
      rewrite (IH _ s' n).
      * f_equal.
        assert (Hd : nth j (children (Scal 0)) (Scal 0) = Scal 0)
          by (destruct j; reflexivity).
        rewrite <- Hd at 1.
        apply (map_nth (fun x => nth j (children x) (Scal 0))).
      * apply Forall_forall. intros y Hy. rewrite Forall_forall in Hent.
        apply (Hent y Hy).
      * apply Forall_forall. intros y Hy. rewrite Forall_forall in Hent.
        apply (Hent y Hy).
      * lia.
      * now rewrite length_map.
Qed.

(** X8.  [index_helper] undoes the stacking of the outputs: when
    rectangular arrays are stacked along a non-negative axis [a], as the
    loop branch stacks the per-object values of an output leaf, selecting
    index [n] at axis [a] of the stack returns value number [n]. *)
Theorem index_helper_inverts_stack (xs : list array) (a n : nat) (y : array) :
  jnp_stack xs (Z.of_nat a) = Ok y ->
  Forall (fun x => rect x = true) xs ->
  (n < length xs)%nat ->
  index_helper n y (Some (Z.of_nat a)) = Ok (nth n xs (Scal 0)).
Proof.
  intros Hst Hr Hn. apply jnp_stack_Ok in Hst.
  destruct Hst as [x0 [rest [Hxs [Hall [Hc ->]]]]].
  assert (Hax : stack_axis x0 (Z.of_nat a) = a).
  { unfold stack_axis.
    replace (Z.of_nat a <? 0) with false by (symmetry; apply Z.ltb_ge; lia).
    apply Nat2Z.id. }
  rewrite Hax in *. unfold index_helper.
  rewrite tuple_repeat_nat. apply getitem_slices.
  apply (@select_stack_at a xs (shape x0) n Hr Hall Hc Hn).
Qed.

Lemma index_helper_inverts_stack_witness :
  index_helper 1 (Arr [Arr [Scal 1; Scal 3]; Arr [Scal 2; Scal 4]])
               (Some (Z.of_nat 1))
  = Ok (nth 1 [Arr [Scal 1; Scal 2]; Arr [Scal 3; Scal 4]] (Scal 0)).
Proof.
  apply (@index_helper_inverts_stack
           [Arr [Scal 1; Scal 2]; Arr [Scal 3; Scal 4]] 1 1).
  - reflexivity.
  - repeat constructor.
  - simpl. lia.
Defined.

(** ** Where a structure mismatch comes from *)

Lemma getitem_Err (idx : list index_item) :
  forall arg e, getitem idx arg = Err e -> e = IndexError.
Proof.
  induction idx as [|it rest IH]; intros arg e; simpl; [discriminate|].
  destruct it as [|n]; destruct arg as [z|xs];
    try (intros H; now injection H).
  - destruct (mapM (getitem rest) xs) as [e'|ys] eqn:E; [|discriminate].
    intros H. injection H as <-. apply mapM_Err_inv in E.
    destruct E as [x [_ Hx]]. apply (IH _ _ Hx).
  - destruct (nth_error xs _) as [x|]; [apply IH | intros H; now injection H].
Qed.

Lemma tree_unflatten_Err {L} (td : PyTreeDef) (ls : list L) (e : error) :
  tree_unflatten td ls = Err e -> e = UnflattenError.
Proof.
  unfold tree_unflatten. destruct (unflatten_aux td ls) as [[t [|x r]]|];
    try discriminate; intros H; now injection H.
Qed.

Lemma object_result_no_mismatch (func : pyfunc) (in_tree : PyTreeDef)
    (in_axes_flat : list (option Z)) (args_flat : list array) (n : nat)
    (body : pytree) (e : error) :
  raises_no_mismatch func ->
  object_result func in_tree in_axes_flat args_flat n body = Err e ->
  is_mismatch e = false.
Proof.
  intros Hfunc. unfold object_result, flatten_func_for_object_vmap.
  destruct (mapM _ _) as [e'|ai] eqn:Eai.
  { intros H. injection H as <-. apply mapM_Err_inv in Eai.
    destruct Eai as [q [_ Hq]]. unfold index_helper in Hq.
    destruct (snd q); [|discriminate]. now rewrite (getitem_Err _ _ Hq). }
  rewrite mbind_lift_Ok.
  destruct (tree_unflatten in_tree ai) as [e'|t] eqn:Et.
  { intros H. injection H as <-. now rewrite (tree_unflatten_Err _ _ Et). }
  rewrite mbind_lift_Ok.
  destruct t as [x|[] cs]; try (intros H; injection H as <-; reflexivity).
  unfold mbind, outcome. simpl.
  destruct (func body cs) as [e'|ans] eqn:Ef; simpl; [|discriminate].
  intros H. injection H as <-. apply (Hfunc _ _ _ Ef).
Qed.

Lemma assemble_no_mismatch (out_tree : option PyTreeDef) (out_axes : axis_spec)
    (rs : list (list array)) (e : error) :
  assemble out_tree out_axes rs = Err e -> is_mismatch e = false.
Proof.
  unfold assemble, flatten_axes. destruct out_tree as [td|].
  - destruct (flatten_axes_prefix out_axes td) as [axes|];
      [|intros H; injection H as <-; reflexivity].
    rewrite rbind_Ok.
    destruct (mapM assemble_leaf (zip_axes axes rs)) as [e'|leaves] eqn:El.
    + intros H. injection H as <-. apply mapM_Err_inv in El.
      destruct El as [q [_ Hq]]. unfold assemble_leaf in Hq.
      destruct (fst q) as [a|].
      * now rewrite (jnp_stack_Err _ _ Hq).
      * destruct (snd q); [|discriminate]. now injection Hq as <-.
    + rewrite rbind_Ok. intros H. now rewrite (tree_unflatten_Err _ _ H).
  - intros H. injection H as <-. reflexivity.
Qed.

Section LoopMismatch.
Variable func : pyfunc.
Variable in_tree : PyTreeDef.
Variable in_axes_flat : list (option Z).
Variable args_flat : list array.
Hypothesis Hfunc : raises_no_mismatch func.

(** A loop that stops with the mismatch error met an object whose
    descriptor is not the expected one, after objects that all had it. *)
Lemma object_loop_mismatch_inv (bodies : list pytree) :
  forall n results (exp0 expected found : PyTreeDef),
  outcome (object_loop func in_tree in_axes_flat args_flat n bodies results
                       (Some exp0)) = Err (StructureMismatch expected found) ->
  expected = exp0 /\
  exists k bk rk,
    nth_error bodies k = Some bk /\
    object_result func in_tree in_axes_flat args_flat (n + k) bk
      = Ok (rk, found) /\
    found <> exp0 /\
    forall i b, (i < k)%nat -> nth_error bodies i = Some b ->
      exists ri, object_result func in_tree in_axes_flat args_flat (n + i) b
                 = Ok (ri, exp0).
Proof.
  induction bodies as [|b rest IH]; intros n results exp0 expected found H.
  - discriminate.
  - destruct (object_result func in_tree in_axes_flat args_flat n b)
      as [e|[r td1]] eqn:Hb.
    + rewrite (@loop_step_Err func in_tree in_axes_flat args_flat n b rest
                 results (Some exp0) e Hb) in H.
      injection H as ->. apply (object_result_no_mismatch _ _ _ _ _ Hfunc) in Hb.
      discriminate.
    + rewrite (@loop_step func in_tree in_axes_flat args_flat n b rest results
                 (Some exp0) r td1 Hb) in H.
      unfold treedef_neqb in H.
      destruct (treedef_eqb td1 exp0) eqn:E; cbn [negb] in H.
      * apply treedef_eqb_spec in E. subst td1.
        destruct (IH (S n) (results ++ [r]) exp0 expected found H)
          as [-> [k [bk [rk [Hk [Hck [Hne Hpre]]]]]]].
        split; [reflexivity|]. exists (S k), bk, rk.
        split; [exact Hk|]. split.
        { rewrite <- Hck. f_equal. lia. }
        split; [exact Hne|].
        intros i b' Hi Hb'. destruct i as [|i].
        -- simpl in Hb'. injection Hb' as <-. exists r.
           rewrite Nat.add_0_r. exact Hb.
        -- destruct (Hpre i b' ltac:(lia) Hb') as [ri Hri]. exists ri.
           rewrite <- Hri. f_equal. lia.
      * unfold outcome in H. cbn [snd] in H. injection H as <- <-.
        split; [reflexivity|]. exists 0%nat, b, r.
        split; [reflexivity|]. split; [now rewrite Nat.add_0_r|]. split.
        -- intros ->. rewrite treedef_eqb_refl in E. discriminate.
        -- intros i b' Hi. lia.
Qed.

End LoopMismatch.

(** X9.  No false structure mismatch.  When the loop branch raises the
    structure-mismatch error (and the mapped function does not raise that
    error itself), the calls for object 0 and for some later object [j]
    did return, with the descriptors that the error names as expected and
    found; the two descriptors differ; and every object before [j] gave
    the expected one. *)
Theorem structure_mismatch_is_real (objs : list pytree) (func : pyfunc)
    (in_axes_ : list axis_spec) (out_axes : axis_spec) (args : list pytree)
    (expected found : PyTreeDef) :
  raises_no_mismatch func ->
  outcome (slow_path objs func in_axes_ out_axes args)
    = Err (StructureMismatch expected found) ->
  exists in_axes_flat j,
    flatten_axes "body_vmap in_axes" (Some (tree_structure (Node KTuple args)))
                 (Node KTuple in_axes_) = Ok in_axes_flat /\
    (0 < j < length objs)%nat /\
    descriptor_at (slow_call func in_axes_flat args) objs j = Some found /\
    found <> expected /\
    forall i, (i < j)%nat ->
      descriptor_at (slow_call func in_axes_flat args) objs i = Some expected.
Proof.
  intros Hfunc H.
  destruct (flatten_axes "body_vmap in_axes"
              (Some (tree_structure (Node KTuple args))) (Node KTuple in_axes_))
    as [e|in_axes_flat] eqn:Ein.
  { unfold slow_path, tree_flatten in H. cbn [fst snd] in H.
    rewrite Ein in H. unfold flatten_axes in Ein.
    destruct (flatten_axes_prefix _ _); [discriminate|].
    injection Ein as <-. discriminate. }
  exists in_axes_flat. rewrite (slow_path_loop _ _ _ _ _ Ein), outcome_mbind in H.
  destruct (outcome (object_loop _ _ _ _ _ _ _ _)) as [e|r] eqn:Eloop.
  2:{ cbn [outcome lift snd] in H. apply assemble_no_mismatch in H. discriminate. }
  injection H as ->.
  destruct objs as [|b0 rest]; [discriminate|].
  destruct (object_result func (tree_structure (Node KTuple args)) in_axes_flat
              (tree_leaves (Node KTuple args)) 0 b0) as [e|[r0 td0]] eqn:Hb0.
  { rewrite (@loop_step_Err func _ in_axes_flat _ 0 b0 rest [] None e Hb0)
      in Eloop.
    injection Eloop as ->.
    apply (object_result_no_mismatch _ _ _ _ _ Hfunc) in Hb0. discriminate. }
  rewrite (@loop_step func _ in_axes_flat _ 0 b0 rest [] None r0 td0 Hb0) in Eloop.
  change (outcome (object_loop func (tree_structure (Node KTuple args))
                     in_axes_flat (tree_leaves (Node KTuple args)) 1 rest
                     ([] ++ [r0]) (Some td0))
          = Err (StructureMismatch expected found)) in Eloop.
  destruct (@object_loop_mismatch_inv func _ in_axes_flat _ Hfunc rest 1
              ([] ++ [r0]) td0 expected found Eloop)
    as [-> [k [bk [rk [Hk [Hck [Hne Hpre]]]]]]].
  exists (S k). split; [reflexivity|]. split.
  { split; [lia|]. simpl.
    assert (k < length rest)%nat by (apply nth_error_Some; congruence). lia. }
  split.
  { unfold descriptor_at, slow_call. cbn [nth_error]. rewrite Hk.
    change (S k) with (1 + k)%nat. rewrite Hck. reflexivity. }
  split; [exact Hne|].
  intros i Hi. unfold descriptor_at, slow_call. destruct i as [|i].
  - cbn [nth_error]. rewrite Hb0. reflexivity.
  - cbn [nth_error]. destruct (nth_error rest i) as [b|] eqn:Hb.
    + destruct (Hpre i b ltac:(lia) Hb) as [ri Hri].
      change (S i) with (1 + i)%nat. rewrite Hri. reflexivity.
    + apply nth_error_None in Hb.
      assert (k < length rest)%nat by (apply nth_error_Some; congruence). lia.
Qed.

Lemma structure_mismatch_is_real_witness :
  exists in_axes_flat j,
    flatten_axes "body_vmap in_axes"
                 (Some (@tree_structure array (Node KTuple [])))
                 (Node KTuple []) = Ok in_axes_flat /\
    (0 < j < length mixed_objects)%nat /\
    descriptor_at (slow_call identity_func in_axes_flat []) mixed_objects j
      = Some (Leaf tt) /\
    Leaf tt <> Node KTuple [Leaf tt] /\
    forall i, (i < j)%nat ->
      descriptor_at (slow_call identity_func in_axes_flat []) mixed_objects i
        = Some (Node KTuple [Leaf tt]).
Proof.
  apply (@structure_mismatch_is_real mixed_objects identity_func []
           (Leaf (Some 0)) [] (Node KTuple [Leaf tt]) (Leaf tt)).
  - intros body cs e H. discriminate.
  - reflexivity.
Defined.

(** ** An output that is not mapped *)

(** X10.  [out_axes = None]: when every call of the loop branch returns
    with one common structure, the value returned is what the function
    gave for object 0, whatever it gave for the other objects; the function
    is still evaluated for every object. *)
Theorem unmapped_output_is_first_result (objs : list pytree) (func : pyfunc)
    (in_axes_ : list axis_spec) (args : list pytree)
    (in_axes_flat : list (option Z)) (rs : list (list array))
    (td : PyTreeDef) :
  flatten_axes "body_vmap in_axes" (Some (tree_structure (Node KTuple args)))
               (Node KTuple in_axes_) = Ok in_axes_flat ->
  objs <> [] ->
  calls_agree (slow_call func in_axes_flat args) 0 objs rs td ->
  exists v,
    slow_path objs func in_axes_ (Leaf None) args
      = (map EvCall (seq 0 (length objs)), Ok v) /\
    slow_call func in_axes_flat args 0 (hd (Leaf (Scal 0)) objs)
      = Ok (tree_flatten v).
Proof.
  intros Hin Hne Hc.
  destruct (calls_agree_rs _ _ _ _ _ Hne Hc) as [Hl [Hrs Hf]].
  assert (Hout : flatten_axes "body_vmap out_axes" (Some td) (Leaf None) =
                 Ok (repeat None (num_leaves td))) by reflexivity.
  destruct rs as [|r0 rs']; [congruence|].
  destruct objs as [|b0 rest]; [congruence|].
  assert (Hr0 : length r0 = num_leaves td) by (now inversion Hf).
  assert (Hrep : forall i a, nth_error (repeat (@None Z) (num_leaves td)) i = Some a ->
                             a = None /\ (i < num_leaves td)%nat).
  { intros i a Hi. split.
    - apply nth_error_In in Hi. apply repeat_spec in Hi. exact Hi.
    - rewrite <- (repeat_length (@None Z) (num_leaves td)).
      apply nth_error_Some. congruence. }
  destruct (@assemble_total td (Leaf None) (r0 :: rs')
              (repeat None (num_leaves td)) Hrs Hf Hout) as [v Hv].
  { intros i a Hi. destruct (Hrep i a Hi) as [-> _]. eexists. reflexivity. }
  exists v. split.
  { apply (@slow_path_Ok_intro (b0 :: rest) func in_axes_ (Leaf None) args
             in_axes_flat (r0 :: rs') td v Hin Hne Hc Hv). }
  destruct (@assemble_Ok _ _ _ _ Hrs Hf Hv) as [axes' [Eax [_ [Hstruct Hleaves]]]].
  rewrite Hout in Eax. injection Eax as <-.
  assert (Hlv : tree_leaves v = r0).
  { apply nth_error_ext. intros i.
    destruct (Nat.lt_ge_cases i (num_leaves td)) as [Hi|Hi].
    - destruct (Hleaves i None (nth_error_repeat None Hi)) as [leaf [Hl1 Hl2]].
      unfold assemble_leaf, parts_at in Hl2. cbn [fst snd map] in Hl2.
      injection Hl2 as <-. rewrite Hl1. symmetry. apply nth_error_nth'. lia.
    - rewrite (proj2 (nth_error_None _ _)), (proj2 (nth_error_None _ _));
        [reflexivity | lia |].
      rewrite length_tree_leaves, <- num_leaves_structure, Hstruct. exact Hi. }
  unfold tree_flatten. rewrite Hlv, Hstruct. cbn [hd].
  destruct Hc as [Hc0 _]. exact Hc0.
Qed.

Lemma unmapped_output_is_first_result_witness :
  exists v,
    slow_path mixed_objects scale_func
              (normalize_in_axes (InScalar None) [Leaf (Scal 2)]) (Leaf None)
              [Leaf (Scal 2)]
      = (map EvCall (seq 0 (length mixed_objects)), Ok v) /\
    slow_call scale_func [None] [Leaf (Scal 2)] 0
              (hd (Leaf (Scal 0)) mixed_objects)
      = Ok (tree_flatten v).
Proof.
  apply (@unmapped_output_is_first_result mixed_objects scale_func
           (normalize_in_axes (InScalar None) [Leaf (Scal 2)]) [Leaf (Scal 2)]
           [None] [[Scal 2]; [Scal 4]] (Leaf tt)).
  - reflexivity.
  - discriminate.
  - repeat split.
Defined.
